(** * nvitop: the process layer ([nvitop/core/process.py])

    A shallow embedding of the host/device process handles of nvitop: the
    shell quoting helper, [HostProcess.command], the two identity
    registries, the garbage-collection wrapper [auto_garbage_clean], the
    operations of [GpuProcess] it wraps, and [GpuProcess.as_snapshot] with
    its per-tick cache of host snapshots; and, of the exporter
    ([nvitop/prometheus.py]), the loop that flattens the device tree and
    the index label of a gauge.

    Python strings are [string]; a Python float is modelled by the exact
    rational it denotes (every finite double is a rational number, and
    both the comparisons and the [.1f] formatting of CPython are exact on
    that value; the non-finite floats are outside the model); time stamps
    and durations are integers (microseconds);
    class-level dictionaries are [gmap]s; objects with mutable attributes
    live in a heap indexed by references. *)

From Stdlib Require Import ZArith QArith String Ascii List DecimalString Lia.
From Stdlib Require Import DecimalPos DecimalZ.
From stdpp Require Import gmap strings list fin_maps option.

Local Open Scope string_scope.
Local Open Scope Z_scope.

(** ** Strings *)

(** The characters the quoting helper looks at. *)
Definition c_dquote : ascii := "034"%char.
Definition c_squote : ascii := "039"%char.
Definition c_backslash : ascii := "092"%char.
Definition c_dollar : ascii := "036"%char.
Definition c_space : ascii := "032"%char.
Definition c_nul : ascii := "000"%char.

(** [c in s] for a one-character needle. *)
Fixpoint contains (c : ascii) (s : string) : bool :=
  match s with
  | EmptyString => false
  | String a r => if Ascii.eqb a c then true else contains c r
  end.

(** [s.replace(c, by)] for a one-character needle. *)
Fixpoint replace (c : ascii) (by_ : string) (s : string) : string :=
  match s with
  | EmptyString => EmptyString
  | String a r =>
      if Ascii.eqb a c then by_ +:+ replace c by_ r
      else String a (replace c by_ r)
  end.

Definition str1 (c : ascii) : string := String c EmptyString.

(** ['"{}"'.format(s)] and ["'{}'".format(s)]. *)
Definition wrap (q : ascii) (s : string) : string :=
  String q (s +:+ str1 q).

(** [sep.join(l)]. *)
Fixpoint join (sep : string) (l : list string) : string :=
  match l with
  | [] => EmptyString
  | [x] => x
  | x :: r => x +:+ sep +:+ join sep r
  end.

(** [s.lstrip(c)], [s.rstrip(c)] and [s.strip(c)] for a one-character set. *)
Fixpoint lstrip (c : ascii) (s : string) : string :=
  match s with
  | EmptyString => EmptyString
  | String a r => if Ascii.eqb a c then lstrip c r else s
  end.

Fixpoint rstrip (c : ascii) (s : string) : string :=
  match s with
  | EmptyString => EmptyString
  | String a r =>
      match rstrip c r with
      | EmptyString => if Ascii.eqb a c then EmptyString else str1 a
      | r' => String a r'
      end
  end.

Definition strip (c : ascii) (s : string) : string := rstrip c (lstrip c s).

(** [s.split(c)]: cut at every occurrence of [c]; the result is never
    empty, and the empty string gives one empty field. *)
Fixpoint split (c : ascii) (s : string) : list string :=
  match s with
  | EmptyString => [EmptyString]
  | String a r =>
      if Ascii.eqb a c then EmptyString :: split c r
      else match split c r with
           | [] => [str1 a]
           | f :: fs => String a f :: fs
           end
  end.

(** ** [add_quotes], the POSIX definition (lines 20-31) *)

(** The three replacements of line 31, backslash first. *)
Definition escape (s : string) : string :=
  replace c_dollar (String c_backslash (str1 c_dollar))
    (replace c_dquote (String c_backslash (str1 c_dquote))
       (replace c_backslash (String c_backslash (str1 c_backslash)) s)).

Definition add_quotes (s : string) : string :=
  if String.eqb s "" then wrap c_dquote ""
  else
    let fall_through :=
      if negb (contains c_squote s) then wrap c_squote s
      else wrap c_dquote (escape s)
    in
    if negb (contains c_dollar s) && negb (contains c_backslash s) then
      if negb (contains c_space s) then s
      else if negb (contains c_dquote s) then wrap c_dquote s
      else fall_through
    else fall_through.

(** ** [HostProcess.command] on the argument vector (lines 110-115) *)

(** The null-join, strip and re-split of a vector of more than one token. *)
Definition normalize_cmdline (cmdline : list string) : list string :=
  if (1 <? length cmdline)%nat
  then split c_nul (strip c_nul (join (str1 c_nul) cmdline))
  else cmdline.

Definition command_of (cmdline : list string) : string :=
  let cmdline := normalize_cmdline cmdline in
  match cmdline with
  | [only] => only
  | _ => join " " (map add_quotes cmdline)
  end.

(** ** The [type] setter of [GpuProcess] (lines 213-221) *)

Definition type_of_value (value : string) : string :=
  let t := "" in
  let t := if contains "C"%char value then t +:+ "C" else t in
  let t := if contains "G"%char value then t +:+ "G" else t in
  if contains "X"%char value || String.eqb t "CG" then "X" else t.

(** ** The CPU-percent display string (lines 287-292) *)

(** [str(n)] for an integer. *)
Definition str_of_Z (z : Z) : string := NilZero.string_of_int (Z.to_int z).

(** [x < y] on the exact values. *)
Definition Qltb (x y : Q) : bool := (Qnum x * QDen y <? Qnum y * QDen x)%Z.

(** The integer nearest to [n / d] for [0 <= n] and [0 < d], ties to the
    even one: the rounding of the [f] presentation type. *)
Definition round_half_even (n d : Z) : Z :=
  let q := n / d in
  let r := n mod d in
  if 2 * r <? d then q
  else if d <? 2 * r then q + 1
  else if Z.even q then q else q + 1.

(** ['{:.1f}'.format(x)]: sign, integer part, point, one digit. *)
Definition format_1f (x : Q) : string :=
  let tenths := round_half_even (10 * Z.abs (Qnum x)) (QDen x) in
  (if Qnum x <? 0 then "-" else "")
    +:+ str_of_Z (tenths / 10) +:+ "." +:+ str_of_Z (tenths mod 10).

(** [int(x)]: truncation towards zero. *)
Definition int_of_float (x : Q) : Z := Z.quot (Qnum x) (QDen x).

Definition cpu_percent_string_of (cpu_percent : Q) : string :=
  if Qltb cpu_percent (1000 # 1) then format_1f cpu_percent +:+ "%"
  else if Qltb cpu_percent (10000 # 1) then str_of_Z (int_of_float cpu_percent) +:+ "%"
  else "9999+%".

Definition memory_percent_string_of (memory_percent : Q) : string :=
  format_1f memory_percent +:+ "%".

(** ** Objects, registries and the host collaborator *)

(** The failures of the host collaborator ([host.PsutilError] is the base
    class of all of them), and the one other exception the model needs:
    reading an attribute of an object that does not have it. *)
Inductive PsutilError := NoSuchProcess | AccessDenied | ZombieProcess.

Inductive exn := Psutil (e : PsutilError) | AttributeError.

Inductive outcome (A : Type) : Type :=
| Return (a : A)
| Raise (e : exn).
Arguments Return {A} a.
Arguments Raise {A} e.

(** What a query of the host collaborator answers. *)
Inductive reply (A : Type) : Type :=
| Ok (a : A)
| Fails (e : PsutilError).
Arguments Ok {A} a.
Arguments Fails {A} e.

(** Objects are told apart by their reference; a device by its index. *)
Definition ref := nat.
Definition Device := nat.

(** A [HostProcess] object: its identity and the pid it was built for. *)
Record HostProcess := mkHostProcess { hp_id : ref; hp_pid : Z }.

(** Accelerator memory: a byte count or the marker ['N/A']. *)
Inductive GpuMemory := NA | Bytes (n : Z).

(** The attributes of a [GpuProcess] object after [__init__]. *)
Record GpuProcess := mkGpuProcess {
  _pid : Z;
  host : HostProcess;
  device : Device;
  _gpu_memory : GpuMemory;
  _gpu_memory_human : string;
  _type : string;
  _username : option string
}.

(** The host-side snapshot kept in [HOST_SNAPSHOTS]. *)
Record HostSnapshot := mkHostSnapshot {
  hs_real : HostProcess;
  hs_is_running : bool;
  hs_status : string;
  hs_username : string;
  hs_name : string;
  hs_cmdline : list string;
  hs_cpu_percent : Q;
  hs_memory_percent : Q;
  hs_running_time : Z;
  hs_cpu_percent_string : string;
  hs_memory_percent_string : string;
  hs_running_time_human : string;
  hs_command : string
}.

(** The snapshot [GpuProcess.as_snapshot] returns (the [identity] field,
    built from the collaborator's own identity tuple, is left out). *)
Record Snapshot := mkSnapshot {
  s_real : ref;
  s_pid : Z;
  s_device : Device;
  s_gpu_memory : GpuMemory;
  s_gpu_memory_human : string;
  s_type : string;
  s_username : string;
  s_name : string;
  s_cmdline : list string;
  s_command : string;
  s_cpu_percent : Q;
  s_cpu_percent_string : string;
  s_memory_percent : Q;
  s_memory_percent_string : string;
  s_is_running : bool;
  s_running_time : Z;
  s_running_time_human : string
}.

(** The class-level state of the module, the heap of [GpuProcess] objects,
    the allocation counter, and a log of the batch gathers opened on the
    host collaborator (one pid per [with self.host.oneshot()]). *)
Record World := mkWorld {
  HostProcess_INSTANCES : gmap Z HostProcess;
  GpuProcess_INSTANCES : gmap (Z * Device) ref;
  HOST_SNAPSHOTS : gmap Z HostSnapshot;
  CLI_MODE : bool;
  heap : gmap ref GpuProcess;
  next_ref : ref;
  gathers : list Z
}.

Definition set_HostProcess_INSTANCES (m : gmap Z HostProcess) (w : World) : World :=
  mkWorld m (GpuProcess_INSTANCES w) (HOST_SNAPSHOTS w) (CLI_MODE w)
          (heap w) (next_ref w) (gathers w).
Definition set_GpuProcess_INSTANCES (m : gmap (Z * Device) ref) (w : World) : World :=
  mkWorld (HostProcess_INSTANCES w) m (HOST_SNAPSHOTS w) (CLI_MODE w)
          (heap w) (next_ref w) (gathers w).
Definition set_HOST_SNAPSHOTS (m : gmap Z HostSnapshot) (w : World) : World :=
  mkWorld (HostProcess_INSTANCES w) (GpuProcess_INSTANCES w) m (CLI_MODE w)
          (heap w) (next_ref w) (gathers w).
Definition set_CLI_MODE (b : bool) (w : World) : World :=
  mkWorld (HostProcess_INSTANCES w) (GpuProcess_INSTANCES w) (HOST_SNAPSHOTS w) b
          (heap w) (next_ref w) (gathers w).
Definition set_heap (m : gmap ref GpuProcess) (w : World) : World :=
  mkWorld (HostProcess_INSTANCES w) (GpuProcess_INSTANCES w) (HOST_SNAPSHOTS w)
          (CLI_MODE w) m (next_ref w) (gathers w).
Definition set_next_ref (n : ref) (w : World) : World :=
  mkWorld (HostProcess_INSTANCES w) (GpuProcess_INSTANCES w) (HOST_SNAPSHOTS w)
          (CLI_MODE w) (heap w) n (gathers w).
Definition set_gathers (l : list Z) (w : World) : World :=
  mkWorld (HostProcess_INSTANCES w) (GpuProcess_INSTANCES w) (HOST_SNAPSHOTS w)
          (CLI_MODE w) (heap w) (next_ref w) l.

(** The module right after import: empty tables, [CLI_MODE = False]. *)
Definition initial_world : World :=
  mkWorld ∅ ∅ ∅ false ∅ 0%nat [].

(** What the module takes from outside [process.py]: the pid of the
    monitor itself ([os.getpid()]), the value of [time.time()] when the
    class body of [GpuProcess] was run, and the two formatting helpers of
    [utils]. *)
Record Imports := mkImports {
  getpid : Z;
  import_time : Z;
  bytes2human : GpuMemory -> string;
  timedelta2human : Z -> string
}.

(** What the outside answers during one call: the host collaborator's
    queries for a pid ([cpu_percent] and [memory_percent] are the
    TTL-cached methods of [HostProcess]), the clock [datetime.now()], and
    the TTL cache put around [GpuProcess.running_time], which either holds
    a live value for the object or does not. *)
Record Host := mkHost {
  host_is_running : Z -> reply bool;
  host_status : Z -> reply string;
  host_username : Z -> reply string;
  host_name : Z -> reply string;
  host_cmdline : Z -> reply (list string);
  host_cpu_percent : Z -> reply Q;
  host_memory_percent : Z -> reply Q;
  host_create_time : Z -> reply Z;
  now : Z;
  running_time_cached : ref -> option Z
}.

(** ** A state-and-exception monad for the methods *)

Definition M (A : Type) : Type := World -> outcome A * World.

Definition ret {A} (a : A) : M A := fun w => (Return a, w).

Definition bind {A B} (m : M A) (k : A -> M B) : M B :=
  fun w =>
    match m w with
    | (Return a, w1) => k a w1
    | (Raise e, w1) => (Raise e, w1)
    end.

Notation "'let*' x ':=' m 'in' k" := (bind m (fun x => k))
  (at level 10, x name, m at level 100, k at level 200).
Notation "'run' m 'then' k" := (bind m (fun _ => k))
  (at level 10, m at level 100, k at level 200).

Definition modify (f : World -> World) : M unit := fun w => (Return tt, f w).

(** A call of the host collaborator. *)
Definition query {A} (r : reply A) : M A :=
  fun w => match r with
           | Ok a => (Return a, w)
           | Fails e => (Raise (Psutil e), w)
           end.

(** Reading the attributes of [self]. *)
Definition self_obj (self : ref) : M GpuProcess :=
  fun w => match heap w !! self with
           | Some o => (Return o, w)
           | None => (Raise AttributeError, w)
           end.

(** ** [HostProcess(pid)] (lines 74-94) *)

(** [HostProcess.__new__]; [__init__] only talks to the collaborator
    (with [_ignore_nsp] set, and with the failure of the first
    [cpu_percent] sample swallowed), so it leaves the world as it is. *)
Definition HostProcess_new (I : Imports) (pid : option Z) (w : World)
  : HostProcess * World :=
  let pid := default (getpid I) pid in
  match HostProcess_INSTANCES w !! pid with
  | Some instance => (instance, w)
  | None =>
      let instance := mkHostProcess (next_ref w) pid in
      (instance,
       set_HostProcess_INSTANCES (<[pid := instance]> (HostProcess_INSTANCES w))
         (set_next_ref (S (next_ref w)) w))
  end.

(** The call [HostProcess(pid)]: [__new__], then [__init__] on what it
    returned. *)
Definition HostProcess_call (I : Imports) (pid : option Z) (w : World)
  : HostProcess * World :=
  HostProcess_new I pid w.

(** ** [GpuProcess(pid, device, gpu_memory, type)] (lines 128-160) *)

(** [GpuProcess.__init__] on the object at [self], which has no attribute
    yet when the heap has nothing there. *)
Definition GpuProcess_init (I : Imports) (self : ref) (pid : Z) (device : Device)
    (gpu_memory : option GpuMemory) (type : option string) (w : World) : World :=
  let '(h, w1) := HostProcess_call I (Some pid) w in
  let old := heap w1 !! self in
  let gpu_memory :=
    match gpu_memory, old with
    | None, None => Some NA
    | _, _ => gpu_memory
    end in
  let type :=
    match type, old with
    | None, None => Some ""
    | _, _ => type
    end in
  let o :=
    mkGpuProcess pid h device
      (match gpu_memory with
       | Some value => value
       | None => from_option _gpu_memory NA old
       end)
      (match gpu_memory with
       | Some value => bytes2human I value
       | None => from_option _gpu_memory_human "" old
       end)
      (match type with
       | Some value => type_of_value value
       | None => from_option _type "" old
       end)
      None in
  set_heap (<[self := o]> (heap w1)) w1.

(** [GpuProcess.__new__]. *)
Definition GpuProcess_new (I : Imports) (pid : Z) (device : Device)
    (gpu_memory : option GpuMemory) (type : option string) (w : World)
  : ref * World :=
  match GpuProcess_INSTANCES w !! (pid, device) with
  | Some instance => (instance, w)
  | None =>
      let instance := next_ref w in
      let w1 := set_next_ref (S (next_ref w)) w in
      let w2 := GpuProcess_init I instance pid device gpu_memory type w1 in
      let w3 := set_GpuProcess_INSTANCES
                  (<[(pid, device) := instance]> (GpuProcess_INSTANCES w2)) w2 in
      (instance, set_HOST_SNAPSHOTS (delete pid (HOST_SNAPSHOTS w3)) w3)
  end.

(** The call [GpuProcess(...)]: [__new__], then [__init__] once more on
    the object it returned. *)
Definition GpuProcess_call (I : Imports) (pid : Z) (device : Device)
    (gpu_memory : option GpuMemory) (type : option string) (w : World)
  : ref * World :=
  let '(instance, w1) := GpuProcess_new I pid device gpu_memory type w in
  (instance, GpuProcess_init I instance pid device gpu_memory type w1).

(** The assignment [self.type = value]. *)
Definition type_setter (value : string) (o : GpuProcess) : GpuProcess :=
  mkGpuProcess (_pid o) (host o) (device o) (_gpu_memory o) (_gpu_memory_human o)
               (type_of_value value) (_username o).

(** [self.type = value] and [self.set_gpu_memory(value)] as operations on
    the object at [self] (lines 199-201 and 213-221). *)
Definition assign_type (self : ref) (value : string) : M unit :=
  let* o := self_obj self in
  modify (fun w => set_heap (<[self := type_setter value o]> (heap w)) w).

Definition set_gpu_memory (I : Imports) (self : ref) (value : GpuMemory) : M unit :=
  let* o := self_obj self in
  modify (fun w =>
    set_heap (<[self := mkGpuProcess (_pid o) (host o) (device o) value
                          (bytes2human I value) (_type o) (_username o)]> (heap w)) w).

(** ** The garbage-collection wrapper (lines 47-67) *)

(** The two [del] statements of the handler, each with its [KeyError]
    swallowed: deleting a key that is not there changes nothing. *)
Definition evict (pid : Z) (device : Device) (w : World) : World :=
  let w1 := set_GpuProcess_INSTANCES (delete (pid, device) (GpuProcess_INSTANCES w)) w in
  set_HostProcess_INSTANCES (delete pid (HostProcess_INSTANCES w1)) w1.

Definition auto_garbage_clean {A} (default : A) (func : ref -> M A) (self : ref) : M A :=
  fun w =>
    match func self w with
    | (Raise (Psutil _), w1) =>
        match heap w1 !! self with
        | Some o => (Return default, evict (_pid o) (device o) w1)
        | None => (Raise AttributeError, w1)
        end
    | r => r
    end.

(** ** The wrapped operations of [GpuProcess] (lines 223-258) *)

(** [create_time], whose default was computed once, when the decorator
    expression [auto_garbage_clean(default=time.time())] was evaluated. *)
Definition GpuProcess_create_time (I : Imports) (os : Host) : ref -> M Z :=
  auto_garbage_clean (import_time I)
    (fun self =>
       let* o := self_obj self in
       query (host_create_time os (hp_pid (host o)))).

(** The default of [running_time]: [datetime.timedelta()]. *)
Definition running_time_default : Z := 0.

(** [running_time]: the TTL cache outside, the wrapper inside. *)
Definition GpuProcess_running_time (I : Imports) (os : Host) (self : ref) : M Z :=
  match running_time_cached os self with
  | Some cached => ret cached
  | None =>
      auto_garbage_clean running_time_default
        (fun self =>
           let* created := GpuProcess_create_time I os self in
           ret (now os - created))
        self
  end.

Definition set_username (self : ref) (u : option string) : M unit :=
  let* o := self_obj self in
  modify (fun w =>
    set_heap (<[self := mkGpuProcess (_pid o) (host o) (device o) (_gpu_memory o)
                          (_gpu_memory_human o) (_type o) u]> (heap w)) w).

Definition GpuProcess_username (os : Host) : ref -> M string :=
  auto_garbage_clean "N/A"
    (fun self =>
       let* o := self_obj self in
       match _username o with
       | None =>
           let* u := query (host_username os (hp_pid (host o))) in
           run set_username self (Some u) then
           ret u
       | Some u => ret u
       end).

Definition GpuProcess_name (os : Host) : ref -> M string :=
  auto_garbage_clean "N/A"
    (fun self =>
       let* o := self_obj self in
       query (host_name os (hp_pid (host o)))).

Definition GpuProcess_cpu_percent (os : Host) : ref -> M Q :=
  auto_garbage_clean (0 # 1)
    (fun self =>
       let* o := self_obj self in
       query (host_cpu_percent os (hp_pid (host o)))).

Definition GpuProcess_memory_percent (os : Host) : ref -> M Q :=
  auto_garbage_clean (0 # 1)
    (fun self =>
       let* o := self_obj self in
       query (host_memory_percent os (hp_pid (host o)))).

Definition GpuProcess_cmdline (os : Host) : ref -> M (list string) :=
  auto_garbage_clean ["No Such Process"]
    (fun self =>
       let* o := self_obj self in
       let* cmdline := query (host_cmdline os (hp_pid (host o))) in
       ret (if (length cmdline =? 0)%nat then ["Zombie Process"] else cmdline)).

(** [HostProcess.command] on a host handle, and [GpuProcess.command],
    which runs the same body on the device handle's own [cmdline]. *)
Definition HostProcess_command (os : Host) (h : HostProcess) : M string :=
  let* cmdline := query (host_cmdline os (hp_pid h)) in
  ret (command_of cmdline).

Definition GpuProcess_command (os : Host) (self : ref) : M string :=
  let* cmdline := GpuProcess_cmdline os self in
  ret (command_of cmdline).

(** ** The per-tick cache and [as_snapshot] (lines 263-329) *)

Definition clear_host_snapshots (w : World) : World :=
  set_HOST_SNAPSHOTS ∅ w.

(** The instrumentation: a batch gather for [pid] is opened. *)
Definition log_gather (pid : Z) (w : World) : World :=
  set_gathers (gathers w ++ [pid]) w.

(** The [except KeyError] branch: one batch gather on the host
    collaborator, the derived strings, and the store under [CLI_MODE]. *)
Definition gather_host_snapshot (I : Imports) (os : Host) (self : ref) : M HostSnapshot :=
  let* o := self_obj self in
  run modify (log_gather (_pid o)) then
  let* is_running := query (host_is_running os (hp_pid (host o))) in
  let* status := query (host_status os (hp_pid (host o))) in
  let* username := GpuProcess_username os self in
  let* name := GpuProcess_name os self in
  let* cmdline := GpuProcess_cmdline os self in
  let* cpu_percent := GpuProcess_cpu_percent os self in
  let* memory_percent := GpuProcess_memory_percent os self in
  let* running_time := GpuProcess_running_time I os self in
  let cpu_percent_string := cpu_percent_string_of cpu_percent in
  let memory_percent_string := memory_percent_string_of memory_percent in
  let running_time_human :=
    if is_running then timedelta2human I running_time else "N/A" in
  let cmdline := if is_running then cmdline else ["No Such Process"] in
  let cmdline := normalize_cmdline cmdline in
  let command :=
    match cmdline with
    | [only] => only
    | _ => join " " (map add_quotes cmdline)
    end in
  let host_snapshot :=
    mkHostSnapshot (host o) is_running status username name cmdline
      cpu_percent memory_percent running_time cpu_percent_string
      memory_percent_string running_time_human command in
  let* o := self_obj self in
  run modify (fun w =>
        if CLI_MODE w
        then set_HOST_SNAPSHOTS (<[_pid o := host_snapshot]> (HOST_SNAPSHOTS w)) w
        else w) then
  ret host_snapshot.

(** The snapshot composed at the end (lines 310-329). *)
Definition compose_snapshot (self : ref) (o : GpuProcess) (host_snapshot : HostSnapshot)
  : Snapshot :=
  mkSnapshot self (_pid o) (device o) (_gpu_memory o)
    (_gpu_memory_human o) (_type o)
    (hs_username host_snapshot) (hs_name host_snapshot)
    (hs_cmdline host_snapshot) (hs_command host_snapshot)
    (hs_cpu_percent host_snapshot) (hs_cpu_percent_string host_snapshot)
    (hs_memory_percent host_snapshot)
    (hs_memory_percent_string host_snapshot)
    (hs_is_running host_snapshot) (hs_running_time host_snapshot)
    (hs_running_time_human host_snapshot).

Definition as_snapshot (I : Imports) (os : Host) : ref -> M (option Snapshot) :=
  auto_garbage_clean None
    (fun self =>
       let* o := self_obj self in
       let* cached := (fun w => (Return (HOST_SNAPSHOTS w !! _pid o), w)) in
       let* host_snapshot :=
         match cached with
         | Some host_snapshot => ret host_snapshot
         | None => gather_host_snapshot I os self
         end in
       let* o := self_obj self in
       ret (Some (compose_snapshot self o host_snapshot))).

(** ** What an operation may change *)

(** Two states of one object that differ in the cached user name only. *)
Definition same_handle (o o' : GpuProcess) : Prop :=
  _pid o' = _pid o /\ host o' = host o /\ device o' = device o
  /\ _gpu_memory o' = _gpu_memory o
  /\ _gpu_memory_human o' = _gpu_memory_human o
  /\ _type o' = _type o.

(** The footprint of a wrapped operation: it may cache a user name in an
    object and may delete entries of the two identity tables; the snapshot
    cache, the mode, the gather log and the allocator stay as they are. *)
Record quiet (w w' : World) : Prop := mkQuiet {
  quiet_snapshots : HOST_SNAPSHOTS w' = HOST_SNAPSHOTS w;
  quiet_cli : CLI_MODE w' = CLI_MODE w;
  quiet_gathers : gathers w' = gathers w;
  quiet_next : next_ref w' = next_ref w;
  quiet_heap : forall r, option_Forall2 same_handle (heap w !! r) (heap w' !! r);
  quiet_gpu : GpuProcess_INSTANCES w' ⊆ GpuProcess_INSTANCES w;
  quiet_host : HostProcess_INSTANCES w' ⊆ HostProcess_INSTANCES w
}.

(** The identity of [o] is in neither table. *)
Definition absent (o : GpuProcess) (w : World) : Prop :=
  GpuProcess_INSTANCES w !! (_pid o, device o) = None
  /\ HostProcess_INSTANCES w !! _pid o = None.


(** ** Reachable worlds and their invariant *)

(** The worlds the module can be in: the one after import, and those any
    sequence of its operations leads to. [update_gpu_memory] is covered
    through its parts: it assigns the memory attributes and then asks the
    device for its processes, which constructs handles. *)
Inductive reachable (I : Imports) : World -> Prop :=
| reach_initial : reachable I initial_world
| reach_set_CLI_MODE b w :
    reachable I w -> reachable I (set_CLI_MODE b w)
| reach_HostProcess pid w :
    reachable I w -> reachable I (snd (HostProcess_call I pid w))
| reach_GpuProcess pid dev mem ty w :
    reachable I w -> reachable I (snd (GpuProcess_call I pid dev mem ty w))
| reach_assign_type self value w :
    reachable I w -> reachable I (snd (assign_type self value w))
| reach_set_gpu_memory self value w :
    reachable I w -> reachable I (snd (set_gpu_memory I self value w))
| reach_clear_host_snapshots w :
    reachable I w -> reachable I (clear_host_snapshots w)
| reach_create_time os self w :
    reachable I w -> reachable I (snd (GpuProcess_create_time I os self w))
| reach_running_time os self w :
    reachable I w -> reachable I (snd (GpuProcess_running_time I os self w))
| reach_username os self w :
    reachable I w -> reachable I (snd (GpuProcess_username os self w))
| reach_name os self w :
    reachable I w -> reachable I (snd (GpuProcess_name os self w))
| reach_cpu_percent os self w :
    reachable I w -> reachable I (snd (GpuProcess_cpu_percent os self w))
| reach_memory_percent os self w :
    reachable I w -> reachable I (snd (GpuProcess_memory_percent os self w))
| reach_cmdline os self w :
    reachable I w -> reachable I (snd (GpuProcess_cmdline os self w))
| reach_as_snapshot os self w :
    reachable I w -> reachable I (snd (as_snapshot I os self w)).

(** A registered host handle was built for the pid it is registered
    under, no two registered host handles are one object, a registered
    device handle is an object whose pid and device are the identity it is
    registered under, and every object was allocated. *)
Record wf (w : World) : Prop := mkWf {
  wf_host : forall p h,
    HostProcess_INSTANCES w !! p = Some h ->
    hp_pid h = p /\ (hp_id h < next_ref w)%nat;
  wf_host_inj : forall p1 p2 h1 h2,
    HostProcess_INSTANCES w !! p1 = Some h1 ->
    HostProcess_INSTANCES w !! p2 = Some h2 ->
    hp_id h1 = hp_id h2 -> p1 = p2;
  wf_gpu : forall p d r,
    GpuProcess_INSTANCES w !! (p, d) = Some r ->
    exists o, heap w !! r = Some o /\ _pid o = p /\ device o = d;
  wf_heap : forall (r : ref) o, heap w !! r = Some o -> (r < next_ref w)%nat
}.

(** A step that allocates nothing, keeps the identity of every object and
    can only delete from the two identity tables. *)
Record shrinks (w w' : World) : Prop := mkShrinks {
  shrinks_next : next_ref w' = next_ref w;
  shrinks_heap : forall r,
    option_Forall2 (fun o o' => _pid o' = _pid o /\ device o' = device o)
      (heap w !! r) (heap w' !! r);
  shrinks_gpu : GpuProcess_INSTANCES w' ⊆ GpuProcess_INSTANCES w;
  shrinks_host : HostProcess_INSTANCES w' ⊆ HostProcess_INSTANCES w
}.

(** ** Sample inputs *)

Definition sample_imports : Imports :=
  mkImports 4242 1000000
    (fun m => match m with NA => "N/A" | Bytes n => str_of_Z n +:+ "B" end)
    (fun d => str_of_Z d).

(** A host on which every query of every pid succeeds. *)
Definition live_host : Host :=
  mkHost (fun _ => Ok true) (fun _ => Ok "running") (fun _ => Ok "alice")
         (fun _ => Ok "python") (fun _ => Ok ["python"; "train.py"])
         (fun _ => Ok (25 # 2)) (fun _ => Ok (3 # 1)) (fun _ => Ok 1000002)
         1000005 (fun _ => None).

(** A host on which the process has vanished. *)
Definition gone_host : Host :=
  mkHost (fun _ => Fails NoSuchProcess) (fun _ => Fails NoSuchProcess)
         (fun _ => Fails NoSuchProcess) (fun _ => Fails NoSuchProcess)
         (fun _ => Fails NoSuchProcess) (fun _ => Fails NoSuchProcess)
         (fun _ => Fails NoSuchProcess) (fun _ => Fails NoSuchProcess)
         1000005 (fun _ => None).


(** A live host that measures the CPU percentage [x]. *)
Definition cpu_host (x : Q) : Host :=
  mkHost (host_is_running live_host) (host_status live_host)
         (host_username live_host) (host_name live_host)
         (host_cmdline live_host) (fun _ => Ok x)
         (host_memory_percent live_host) (host_create_time live_host)
         (now live_host) (running_time_cached live_host).

(** The doubles nearest to 999.95 and to 9999.9, as exact fractions. *)
Definition double_999_95 : Q := 4397826608778445 # 4398046511104.
Definition double_9999_9 : Q := 5497503163298611 # 549755813888.

(** Pid 7 resident on devices 0 and 1. *)
Definition two_devices : World :=
  snd (GpuProcess_call sample_imports 7 1%nat (Some (Bytes 2048)) (Some "G")
         (snd (GpuProcess_call sample_imports 7 0%nat (Some (Bytes 1024)) (Some "C")
                 initial_world))).

(** The object of pid 7 on device 0 in that world (reference 0). *)
Definition sample_process : GpuProcess :=
  mkGpuProcess 7 (mkHostProcess 1%nat 7) 0%nat (Bytes 1024) "1024B" "C" None.

(** The same two handles with the persistent cache mode switched on, and
    that world after one snapshot of the handle on device 0. *)
Definition cli_world : World := set_CLI_MODE true two_devices.

Definition warmed_world : World :=
  snd (as_snapshot sample_imports live_host 0%nat cli_world).

(** A host on which the process has vanished, asked at a later moment. *)
Definition gone_host_later : Host :=
  mkHost (host_is_running gone_host) (host_status gone_host)
         (host_username gone_host) (host_name gone_host)
         (host_cmdline gone_host) (host_cpu_percent gone_host)
         (host_memory_percent gone_host) (host_create_time gone_host)
         2000000 (running_time_cached gone_host).

(** ** The other two definitions of [add_quotes] (lines 32-44) *)

Definition c_percent : ascii := "037"%char.
Definition c_caret : ascii := "094"%char.

(** The three replacements of line 41, caret first. *)
Definition escape_windows (s : string) : string :=
  replace c_percent (String c_caret (str1 c_percent))
    (replace c_dquote (String c_caret (str1 c_dquote))
       (replace c_caret (String c_caret (str1 c_caret)) s)).

Definition add_quotes_windows (s : string) : string :=
  if String.eqb s "" then wrap c_dquote ""
  else
    let fall_through := wrap c_dquote (escape_windows s) in
    if negb (contains c_percent s) && negb (contains c_caret s) then
      if negb (contains c_space s) && negb (contains c_backslash s) then s
      else if negb (contains c_dquote s) then wrap c_dquote s
      else fall_through
    else fall_through.

Definition add_quotes_fallback (s : string) : string := wrap c_dquote s.

(** The platform flags of [host] select one of the three definitions. *)
Inductive Platform := POSIX | WINDOWS | OTHER.

Definition add_quotes_on (platform : Platform) : string -> string :=
  match platform with
  | POSIX => add_quotes
  | WINDOWS => add_quotes_windows
  | OTHER => add_quotes_fallback
  end.

(** [HostProcess.username] under [host.WINDOWS] (lines 105-107), on the
    name the collaborator reports: the part after the last backslash. *)
Definition username_windows (reported : string) : string :=
  List.last (split c_backslash reported) "".

(** [s.startswith(c)] and [s.endswith(c)] for one character. *)
Definition starts_with (c : ascii) (s : string) : bool :=
  match s with
  | EmptyString => false
  | String a _ => Ascii.eqb a c
  end.

Fixpoint ends_with (c : ascii) (s : string) : bool :=
  match s with
  | EmptyString => false
  | String a EmptyString => Ascii.eqb a c
  | String _ r => ends_with c r
  end.

(** ** Reading quoted text back *)

(** One escaping step with the escape character [e] and the two further
    special characters [c1] and [c2]. *)
Definition escape_char (e c1 c2 a : ascii) : string :=
  if Ascii.eqb a e || Ascii.eqb a c1 || Ascii.eqb a c2
  then String e (str1 a) else str1 a.

Fixpoint escape_each (e c1 c2 : ascii) (s : string) : string :=
  match s with
  | EmptyString => EmptyString
  | String a r => escape_char e c1 c2 a +:+ escape_each e c1 c2 r
  end.

(** Dropping each escape character and keeping the character after it. *)
Fixpoint unescape (e : ascii) (s : string) : string :=
  match s with
  | EmptyString => EmptyString
  | String a r =>
      if Ascii.eqb a e then
        match r with
        | EmptyString => EmptyString
        | String b r' => String b (unescape e r')
        end
      else String a (unescape e r)
  end.

(** No special character of [s] stands unescaped, and no escape
    character is left dangling at the end. *)
Fixpoint escaped (e c1 c2 : ascii) (s : string) : bool :=
  match s with
  | EmptyString => true
  | String a r =>
      if Ascii.eqb a e then
        match r with
        | EmptyString => false
        | String _ r' => escaped e c1 c2 r'
        end
      else if Ascii.eqb a c1 || Ascii.eqb a c2 then false
      else escaped e c1 c2 r
  end.

(** [s[:-1]]. *)
Fixpoint drop_last (s : string) : string :=
  match s with
  | EmptyString => EmptyString
  | String a EmptyString => EmptyString
  | String a r => String a (drop_last r)
  end.

(** Reading a token that [add_quotes] has written: single quotes are
    taken off, double quotes are taken off and the body is unescaped with
    [e], anything else is the token itself. *)
Definition unquote (e : ascii) (t : string) : string :=
  match t with
  | EmptyString => EmptyString
  | String q r =>
      if Ascii.eqb q c_squote then drop_last r
      else if Ascii.eqb q c_dquote then unescape e (drop_last r)
      else t
  end.

(** ** Well-formed snapshots and objects *)

(** The derived fields of a host snapshot agree with the measured ones. *)
Definition host_snapshot_consistent (I : Imports) (hs : HostSnapshot) : Prop :=
  hs_cpu_percent_string hs = cpu_percent_string_of (hs_cpu_percent hs)
  /\ hs_memory_percent_string hs = memory_percent_string_of (hs_memory_percent hs)
  /\ hs_cmdline hs <> []
  /\ normalize_cmdline (hs_cmdline hs) = hs_cmdline hs
  /\ hs_command hs = command_of (hs_cmdline hs)
  /\ (hs_is_running hs = true ->
      hs_running_time_human hs = timedelta2human I (hs_running_time hs))
  /\ (hs_is_running hs = false ->
      hs_cmdline hs = ["No Such Process"]
      /\ hs_command hs = "No Such Process"
      /\ hs_running_time_human hs = "N/A").

(** The attributes of an object fit together: the type is one of the four
    classifications, the human string is the one of the memory value, and
    the host handle is the one of the object's pid. *)
Definition object_consistent (I : Imports) (o : GpuProcess) : Prop :=
  (_type o = "" \/ _type o = "C" \/ _type o = "G" \/ _type o = "X")
  /\ _gpu_memory_human o = bytes2human I (_gpu_memory o)
  /\ hp_pid (host o) = _pid o.

(** Every object of the heap and every cached host snapshot is
    consistent. *)
Definition world_consistent (I : Imports) (w : World) : Prop :=
  (forall (r : ref) o, heap w !! r = Some o -> object_consistent I o)
  /\ (forall p hs, HOST_SNAPSHOTS w !! p = Some hs -> host_snapshot_consistent I hs).

(** A step that keeps every object up to its cached user name and adds
    only consistent host snapshots to the cache. *)
Definition tame (I : Imports) (w w' : World) : Prop :=
  (forall r, option_Forall2 same_handle (heap w !! r) (heap w' !! r))
  /\ (forall p hs,
        HOST_SNAPSHOTS w' !! p = Some hs ->
        HOST_SNAPSHOTS w !! p = Some hs \/ host_snapshot_consistent I hs).

(** ** The exporter ([prometheus.py]) *)

Definition c_colon : ascii := "058"%char.

(** [device.index]: an [int] for a physical device, a tuple of ints for
    a MIG instance. *)
Inductive DeviceIndex := IntIndex (i : Z) | TupleIndex (t : list Z).

(** The label [index] of a gauge (lines 179-181): [str(device.index)]
    for an [int], otherwise [':'.join(map(str, device.index))]. *)
Definition index_label (index : DeviceIndex) : string :=
  match index with
  | IntIndex i => str_of_Z i
  | TupleIndex t => join (str1 c_colon) (map str_of_Z t)
  end.

(** The integers an index is made of. *)
Definition index_components (index : DeviceIndex) : list Z :=
  match index with
  | IntIndex i => [i]
  | TupleIndex t => t
  end.

Section CollectDevices.
Context {D : Type}.
Variable mig_devices : D -> list D.

(** The body of the loop of lines 217-224 on the pair
    [(devices, leaf_devices)]. *)
Definition collect_step (acc : list D * list D) (physical_device : D)
  : list D * list D :=
  let '(devices, leaf_devices) := acc in
  let devices := (devices ++ [physical_device])%list in
  let migs := mig_devices physical_device in
  if (0 <? length migs)%nat
  then ((devices ++ migs)%list, (leaf_devices ++ migs)%list)
  else (devices, (leaf_devices ++ [physical_device])%list).

(** Lines 214-224: the lists [devices] and [leaf_devices] after the
    loop over [physical_devices]. *)
Definition collect_devices (physical_devices : list D) : list D * list D :=
  fold_left collect_step physical_devices ([], []).
End CollectDevices.


(** * Strings: helper lemmas *)

Lemma contains_app c a b : contains c (a +:+ b) = contains c a || contains c b.
Proof.
  induction a as [|x a IH]; simpl; [reflexivity|].
  destruct (Ascii.eqb x c); [reflexivity | exact IH].
Qed.

Lemma type_of_value_cases v :
  type_of_value v =
    if contains "X"%char v then "X"
    else if contains "C"%char v
         then if contains "G"%char v then "X" else "C"
         else if contains "G"%char v then "G" else "".
Proof.
  unfold type_of_value.
  destruct (contains "X"%char v), (contains "C"%char v), (contains "G"%char v);
    reflexivity.
Qed.

(** * The type setter *)

(** C3, as the code has it: the setter overwrites the field with the
    classification of the string it is given, so after two assignments the
    field is the classification of the second string alone. The
    classification itself does not depend on the order of the flags inside
    the string, classifying twice is classifying once, assigning the same
    string twice is assigning it once, and 'C' and 'G' given together in
    one call, in either order, give the combined marker 'X'. *)
Theorem type_setter_overwrites (o : GpuProcess) (a b : string) :
  type_setter a (type_setter a o) = type_setter a o
  /\ _type (type_setter b (type_setter a o)) = type_of_value b
  /\ type_of_value (a +:+ b) = type_of_value (b +:+ a)
  /\ type_of_value (type_of_value a) = type_of_value a
  /\ type_of_value (type_of_value a +:+ b) = type_of_value (a +:+ b)
  /\ type_of_value "CG" = "X" /\ type_of_value "GC" = "X"
  /\ type_of_value "C" = "C" /\ type_of_value "G" = "G" /\ type_of_value "X" = "X".
Proof.
  repeat split; try reflexivity.
  - rewrite !type_of_value_cases, !contains_app.
    destruct (contains "X"%char a), (contains "X"%char b),
      (contains "C"%char a), (contains "C"%char b),
      (contains "G"%char a), (contains "G"%char b); reflexivity.
  - rewrite (type_of_value_cases a).
    destruct (contains "X"%char a), (contains "C"%char a), (contains "G"%char a);
      reflexivity.
  - rewrite (type_of_value_cases (a +:+ b)), (type_of_value_cases (_ +:+ b)).
    rewrite !contains_app, (type_of_value_cases a).
    destruct (contains "X"%char a), (contains "C"%char a), (contains "G"%char a);
      simpl; try reflexivity;
      destruct (contains "X"%char b), (contains "C"%char b), (contains "G"%char b);
      reflexivity.
Qed.

(** C3 as stated fails: 'C' then 'G' leaves 'G', 'G' then 'C' leaves 'C';
    the two orders differ and neither is the combined marker. *)
Lemma type_setter_order_matters :
  _type (type_setter "G" (type_setter "C" sample_process)) = "G"
  /\ _type (type_setter "C" (type_setter "G" sample_process)) = "C"
  /\ _type (type_setter "G" (type_setter "C" sample_process))
     <> _type (type_setter "C" (type_setter "G" sample_process))
  /\ _type (type_setter "G" (type_setter "C" sample_process)) <> "X".
Proof. repeat split; discriminate. Qed.

(** * The command string *)

(** C5, as the code has it: the trailing empty token is removed by the
    null-strip before the tokens are quoted, so the first vector gives
    echo "hello world" with nothing after it; an empty token between two
    others survives and is rendered as two double quotes; a single-token
    vector is returned verbatim, whatever the token. [HostProcess.command]
    is this function of the vector the collaborator reports. *)
Theorem command_examples :
  command_of ["echo"; "hello world"; ""] = "echo " +:+ wrap c_dquote "hello world"
  /\ normalize_cmdline ["echo"; "hello world"; ""] = ["echo"; "hello world"]
  /\ command_of ["echo"; ""; "x"] = "echo " +:+ wrap c_dquote "" +:+ " x"
  /\ command_of ["ls -la"] = "ls -la"
  /\ (forall token, command_of [token] = token)
  /\ (forall os h w,
        HostProcess_command os h w =
          match host_cmdline os (hp_pid h) with
          | Ok cmdline => (Return (command_of cmdline), w)
          | Fails e => (Raise (Psutil e), w)
          end).
Proof.
  repeat split.
  intros os h w. unfold HostProcess_command, bind, query.
  destruct (host_cmdline os (hp_pid h)); reflexivity.
Qed.

(** C5 as stated fails: the result for the three-token vector is not
    echo "hello world" followed by a quoted empty token. *)
Lemma command_drops_trailing_empty :
  command_of ["echo"; "hello world"; ""]
  <> "echo " +:+ wrap c_dquote "hello world" +:+ " " +:+ wrap c_dquote "".
Proof. vm_compute. discriminate. Qed.

(** * The quoting table *)

(** C7, as the code has it. The empty string gives two double quotes. A
    non-empty string with no dollar, no backslash and no space is returned
    as it is, whatever quote characters it holds. With a space, but no
    dollar, backslash or double quote, it is wrapped in double quotes. In
    every other case (a dollar or a backslash, or a space together with a
    double quote) it is wrapped in single quotes when it holds no single
    quote, and otherwise escaped and wrapped in double quotes. *)
Theorem add_quotes_table (s : string) :
  (s = "" -> add_quotes s = wrap c_dquote "")
  /\ (s <> "" -> contains c_dollar s = false -> contains c_backslash s = false ->
      contains c_space s = false -> add_quotes s = s)
  /\ (contains c_dollar s = false -> contains c_backslash s = false ->
      contains c_space s = true -> contains c_dquote s = false ->
      add_quotes s = wrap c_dquote s)
  /\ (contains c_dollar s = true \/ contains c_backslash s = true
      \/ (contains c_space s = true /\ contains c_dquote s = true) ->
      (contains c_squote s = false -> add_quotes s = wrap c_squote s)
      /\ (contains c_squote s = true -> add_quotes s = wrap c_dquote (escape s))).
Proof.
  unfold add_quotes.
  destruct (String.eqb s "") eqn:E.
  - apply String.eqb_eq in E. subst s.
    repeat split; intros; try reflexivity; try congruence;
      simpl in *; intuition congruence.
  - assert (s <> "") by (intros ->; discriminate E).
    destruct (contains c_dollar s), (contains c_backslash s),
      (contains c_space s), (contains c_dquote s), (contains c_squote s);
      simpl; repeat split; intros; try reflexivity; try congruence;
      intuition congruence.
Qed.

Lemma add_quotes_table_witness :
  add_quotes "" = wrap c_dquote ""
  /\ add_quotes "ls" = "ls"
  /\ add_quotes "hello world" = wrap c_dquote "hello world"
  /\ add_quotes "$HOME" = wrap c_squote "$HOME"
  /\ add_quotes (String c_squote "$x") = wrap c_dquote (escape (String c_squote "$x")).
Proof.
  split; [apply (proj1 (add_quotes_table "")); reflexivity|].
  split; [apply (proj1 (proj2 (add_quotes_table "ls"))); [discriminate | reflexivity ..]|].
  split; [apply (proj1 (proj2 (proj2 (add_quotes_table "hello world")))); reflexivity|].
  split.
  - apply (proj2 (proj2 (proj2 (add_quotes_table "$HOME")))); [left|]; reflexivity.
  - apply (proj2 (proj2 (proj2 (add_quotes_table (String c_squote "$x")))));
      [left|]; reflexivity.
Defined.

(** C7 as stated fails twice. A string with a double quote, no single
    quote and no space is returned as it is, not wrapped in single quotes;
    and a string with a dollar and no single quote is wrapped in single
    quotes with nothing escaped. *)
Lemma add_quotes_table_fails :
  let s := String "a" (String c_dquote "b") in
  (contains c_dquote s = true /\ contains c_squote s = false
   /\ add_quotes s = s /\ add_quotes s <> wrap c_squote s)
  /\ (contains c_dollar "$HOME" = true
      /\ add_quotes "$HOME" = wrap c_squote "$HOME"
      /\ add_quotes "$HOME" <> wrap c_dquote (escape "$HOME")).
Proof. vm_compute. repeat split; discriminate. Qed.

(** * The monad: inversion lemmas *)

Lemma bind_step {A B} (m : M A) (k : A -> M B) w a w1 :
  m w = (Return a, w1) -> bind m k w = k a w1.
Proof. unfold bind. intros ->. reflexivity. Qed.

Lemma bind_fail {A B} (m : M A) (k : A -> M B) w e w1 :
  m w = (Raise e, w1) -> bind m k w = (Raise e, w1).
Proof. unfold bind. intros ->. reflexivity. Qed.

Lemma self_obj_live self w o :
  heap w !! self = Some o -> self_obj self w = (Return o, w).
Proof. unfold self_obj. intros ->. reflexivity. Qed.

(** * The CPU-percent display string *)

Lemma Qltb_lt (x y : Q) : Qltb x y = true <-> (x < y)%Q.
Proof. unfold Qltb, Qlt. apply Z.ltb_lt. Qed.

Lemma Qltb_ge (x y : Q) : Qltb x y = false <-> (y <= x)%Q.
Proof. unfold Qltb, Qle. rewrite Z.ltb_ge. reflexivity. Qed.

(** The rounding picks a nearest integer: it is off by half a unit at most. *)
Lemma round_half_even_nearest (n d : Z) :
  0 <= n -> 0 < d ->
  2 * Z.abs (n - round_half_even n d * d) <= d /\ 0 <= round_half_even n d.
Proof.
  intros Hn Hd. unfold round_half_even.
  pose proof (Z.div_mod n d ltac:(lia)) as Hdm.
  pose proof (Z.mod_pos_bound n d Hd) as Hr.
  pose proof (Z.div_pos n d Hn Hd) as Hq.
  destruct (Z.ltb_spec (2 * (n mod d)) d); [nia|].
  destruct (Z.ltb_spec d (2 * (n mod d))); [nia|].
  destruct (Z.even (n / d)); nia.
Qed.

Lemma round_half_even_mono_bound (n d k : Z) :
  0 <= n -> 0 < d -> n < k * d -> round_half_even n d <= k.
Proof.
  intros Hn Hd Hk. unfold round_half_even.
  pose proof (Z.div_mod n d ltac:(lia)) as Hdm.
  pose proof (Z.mod_pos_bound n d Hd) as Hr.
  assert (n / d < k) by nia.
  destruct (Z.ltb_spec (2 * (n mod d)) d); [lia|].
  destruct (Z.ltb_spec d (2 * (n mod d))); [lia|].
  destruct (Z.even (n / d)); lia.
Qed.

(** From 9999.5 up to 10000 the rounding gives 10000. *)
Lemma round_half_even_top (n d : Z) :
  0 < d -> 19999 * d <= 2 * n -> n < 10000 * d -> round_half_even n d = 10000.
Proof.
  intros Hd Hlo Hhi. unfold round_half_even.
  assert (Hq : n / d = 9999).
  { symmetry. apply (Z.div_unique n d 9999 (n - 9999 * d)); lia. }
  assert (Hr : n mod d = n - 9999 * d) by (rewrite Z.mod_eq, Hq; lia).
  rewrite Hq, Hr.
  destruct (Z.ltb_spec (2 * (n - 9999 * d)) d); [lia|].
  destruct (Z.ltb_spec d (2 * (n - 9999 * d))); reflexivity.
Qed.

Lemma int_of_float_band (x : Q) :
  (1000 # 1 <= x)%Q -> (x < 10000 # 1)%Q -> 1000 <= int_of_float x <= 9999.
Proof.
  unfold Qle, Qlt, int_of_float. simpl. intros Hlo Hhi.
  assert (Hd : 0 < QDen x) by apply Pos2Z.is_pos.
  rewrite Z.quot_div_nonneg by nia.
  split.
  - apply Z.div_le_lower_bound; lia.
  - assert (Qnum x / QDen x < 10000); [|lia].
    apply Z.div_lt_upper_bound; lia.
Qed.

(** The three bands of the string, on the measured value alone. *)
Lemma cpu_percent_string_of_bands (x : Q) :
  ((x < 1000 # 1)%Q -> cpu_percent_string_of x = format_1f x +:+ "%")
  /\ ((1000 # 1 <= x)%Q -> (x < 10000 # 1)%Q ->
      cpu_percent_string_of x = str_of_Z (int_of_float x) +:+ "%")
  /\ ((10000 # 1 <= x)%Q -> cpu_percent_string_of x = "9999+%").
Proof.
  unfold cpu_percent_string_of. repeat split.
  - intros H. apply Qltb_lt in H. rewrite H. reflexivity.
  - intros H1 H2. apply Qltb_ge in H1. apply Qltb_lt in H2.
    rewrite H1, H2. reflexivity.
  - intros H. assert (H' : (1000 # 1 <= x)%Q).
    { eapply Qle_trans; [|exact H]. discriminate. }
    apply Qltb_ge in H, H'. rewrite H, H'. reflexivity.
Qed.

(** * The wrapped operations on a live object

    Each wrapped operation, run on an object that is in the heap, returns:
    the value computed from the collaborator's answer, or its declared
    default with the identity evicted. *)

Section WrappedOperations.
Variables (I : Imports) (os : Host) (self : ref) (w : World) (o : GpuProcess).
Hypothesis Hlive : heap w !! self = Some o.

Lemma auto_garbage_clean_catch {A} (default : A) (func : ref -> M A) e w1 o1 :
  func self w = (Raise (Psutil e), w1) ->
  heap w1 !! self = Some o1 ->
  auto_garbage_clean default func self w
  = (Return default, evict (_pid o1) (device o1) w1).
Proof. unfold auto_garbage_clean. intros -> ->. reflexivity. Qed.

Lemma auto_garbage_clean_pass {A} (default : A) (func : ref -> M A) a w1 :
  func self w = (Return a, w1) ->
  auto_garbage_clean default func self w = (Return a, w1).
Proof. unfold auto_garbage_clean. intros ->. reflexivity. Qed.

Lemma GpuProcess_create_time_eq :
  GpuProcess_create_time I os self w =
    match host_create_time os (hp_pid (host o)) with
    | Ok created => (Return created, w)
    | Fails _ => (Return (import_time I), evict (_pid o) (device o) w)
    end.
Proof.
  unfold GpuProcess_create_time, auto_garbage_clean, bind, self_obj, query.
  rewrite Hlive. destruct (host_create_time _ _); [reflexivity|].
  rewrite Hlive. reflexivity.
Qed.

Lemma GpuProcess_running_time_eq :
  GpuProcess_running_time I os self w =
    match running_time_cached os self with
    | Some cached => (Return cached, w)
    | None =>
        match host_create_time os (hp_pid (host o)) with
        | Ok created => (Return (now os - created), w)
        | Fails _ =>
            (Return (now os - import_time I), evict (_pid o) (device o) w)
        end
    end.
Proof.
  unfold GpuProcess_running_time.
  destruct (running_time_cached os self); [reflexivity|].
  unfold auto_garbage_clean at 1. unfold bind.
  rewrite GpuProcess_create_time_eq.
  destruct (host_create_time _ _); reflexivity.
Qed.

Lemma GpuProcess_username_eq :
  GpuProcess_username os self w =
    match _username o with
    | Some u => (Return u, w)
    | None =>
        match host_username os (hp_pid (host o)) with
        | Ok u =>
            (Return u,
             set_heap (<[self := mkGpuProcess (_pid o) (host o) (device o)
                                   (_gpu_memory o) (_gpu_memory_human o)
                                   (_type o) (Some u)]> (heap w)) w)
        | Fails _ => (Return "N/A", evict (_pid o) (device o) w)
        end
    end.
Proof.
  unfold GpuProcess_username, auto_garbage_clean, bind, self_obj.
  rewrite Hlive. destruct (_username o); [reflexivity|].
  unfold query, set_username, bind, self_obj, modify.
  destruct (host_username _ _); rewrite Hlive; reflexivity.
Qed.

Lemma GpuProcess_name_eq :
  GpuProcess_name os self w =
    match host_name os (hp_pid (host o)) with
    | Ok v => (Return v, w)
    | Fails _ => (Return "N/A", evict (_pid o) (device o) w)
    end.
Proof.
  unfold GpuProcess_name, auto_garbage_clean, bind, self_obj, query.
  rewrite Hlive. destruct (host_name _ _); [reflexivity|].
  rewrite Hlive. reflexivity.
Qed.

Lemma GpuProcess_cpu_percent_eq :
  GpuProcess_cpu_percent os self w =
    match host_cpu_percent os (hp_pid (host o)) with
    | Ok v => (Return v, w)
    | Fails _ => (Return (0 # 1), evict (_pid o) (device o) w)
    end.
Proof.
  unfold GpuProcess_cpu_percent, auto_garbage_clean, bind, self_obj, query.
  rewrite Hlive. destruct (host_cpu_percent _ _); [reflexivity|].
  rewrite Hlive. reflexivity.
Qed.

Lemma GpuProcess_memory_percent_eq :
  GpuProcess_memory_percent os self w =
    match host_memory_percent os (hp_pid (host o)) with
    | Ok v => (Return v, w)
    | Fails _ => (Return (0 # 1), evict (_pid o) (device o) w)
    end.
Proof.
  unfold GpuProcess_memory_percent, auto_garbage_clean, bind, self_obj, query.
  rewrite Hlive. destruct (host_memory_percent _ _); [reflexivity|].
  rewrite Hlive. reflexivity.
Qed.

Lemma GpuProcess_cmdline_eq :
  GpuProcess_cmdline os self w =
    match host_cmdline os (hp_pid (host o)) with
    | Ok [] => (Return ["Zombie Process"], w)
    | Ok (arg :: args) => (Return (arg :: args), w)
    | Fails _ => (Return ["No Such Process"], evict (_pid o) (device o) w)
    end.
Proof.
  unfold GpuProcess_cmdline, auto_garbage_clean, bind, self_obj, query.
  rewrite Hlive. destruct (host_cmdline _ _) as [[|arg args]|]; try reflexivity.
  rewrite Hlive. reflexivity.
Qed.
End WrappedOperations.

(** * The footprint of the wrapped operations *)

Lemma same_handle_refl o : same_handle o o.
Proof. repeat split. Qed.

Lemma same_handle_trans o1 o2 o3 :
  same_handle o1 o2 -> same_handle o2 o3 -> same_handle o1 o3.
Proof. unfold same_handle. intuition congruence. Qed.

Lemma quiet_refl w : quiet w w.
Proof.
  split; try reflexivity.
  intros r. destruct (heap w !! r); constructor. apply same_handle_refl.
Qed.

Lemma quiet_trans w1 w2 w3 : quiet w1 w2 -> quiet w2 w3 -> quiet w1 w3.
Proof.
  intros [] []. split; try congruence.
  - intros r. specialize (quiet_heap0 r). specialize (quiet_heap1 r).
    destruct quiet_heap0; inversion quiet_heap1; subst; constructor.
    eapply same_handle_trans; eassumption.
  - etransitivity; eassumption.
  - etransitivity; eassumption.
Qed.

Lemma quiet_evict p d w : quiet w (evict p d w).
Proof.
  split; try reflexivity; simpl.
  - intros r. destruct (heap w !! r); constructor. apply same_handle_refl.
  - apply delete_subseteq.
  - apply delete_subseteq.
Qed.

Lemma quiet_cache_username self o u w :
  heap w !! self = Some o ->
  quiet w (set_heap (<[self := mkGpuProcess (_pid o) (host o) (device o)
                                (_gpu_memory o) (_gpu_memory_human o)
                                (_type o) u]> (heap w)) w).
Proof.
  intros Hlive. split; try reflexivity; simpl.
  intros r. destruct (decide (self = r)) as [<-|Hne].
  - rewrite lookup_insert_eq, Hlive. constructor. repeat split.
  - rewrite lookup_insert_ne by exact Hne.
    destruct (heap w !! r); constructor. apply same_handle_refl.
Qed.

Lemma quiet_live w w' self o :
  quiet w w' -> heap w !! self = Some o ->
  exists o', heap w' !! self = Some o' /\ same_handle o o'.
Proof.
  intros Hq Hlive. pose proof (quiet_heap _ _ Hq self) as H.
  rewrite Hlive in H. inversion H; subst. eauto.
Qed.

Lemma absent_evict o w : absent o (evict (_pid o) (device o) w).
Proof. split; simpl; apply lookup_delete_eq. Qed.

Lemma absent_quiet o w w' : absent o w -> quiet w w' -> absent o w'.
Proof.
  intros [Hg Hh] Hq. split.
  - eapply lookup_weaken_None; [exact Hg | apply Hq].
  - eapply lookup_weaken_None; [exact Hh | apply Hq].
Qed.

Lemma absent_same_handle o o' w : same_handle o o' -> absent o' w -> absent o w.
Proof. intros (Hp & _ & Hd & _). unfold absent. rewrite Hp, Hd. auto. Qed.

Section Footprints.
Variables (I : Imports) (os : Host) (self : ref) (w : World) (o : GpuProcess).
Hypothesis Hlive : heap w !! self = Some o.

Lemma GpuProcess_username_total :
  exists v w', GpuProcess_username os self w = (Return v, w') /\ quiet w w'
    /\ (forall e, _username o = None ->
                  host_username os (hp_pid (host o)) = Fails e ->
                  v = "N/A" /\ absent o w').
Proof.
  rewrite (GpuProcess_username_eq os self w o Hlive).
  destruct (_username o) as [u|].
  - do 2 eexists. split; [reflexivity|]. split; [apply quiet_refl|]. discriminate.
  - destruct (host_username _ _) as [u|e0].
    + do 2 eexists. split; [reflexivity|].
      split; [apply quiet_cache_username, Hlive | discriminate].
    + do 2 eexists. split; [reflexivity|].
      split; [apply quiet_evict|]. intros. split; [reflexivity | apply absent_evict].
Qed.

Lemma GpuProcess_name_total :
  exists v w', GpuProcess_name os self w = (Return v, w') /\ quiet w w'
    /\ (forall e, host_name os (hp_pid (host o)) = Fails e ->
                  v = "N/A" /\ absent o w').
Proof.
  rewrite (GpuProcess_name_eq os self w o Hlive).
  destruct (host_name _ _) as [v|e0]; do 2 eexists;
    (split; [reflexivity|]); (split; [first [apply quiet_refl | apply quiet_evict]|]);
    intros; try discriminate.
  split; [reflexivity | apply absent_evict].
Qed.

Lemma GpuProcess_cmdline_total :
  exists v w', GpuProcess_cmdline os self w = (Return v, w') /\ quiet w w'
    /\ v <> []
    /\ (forall e, host_cmdline os (hp_pid (host o)) = Fails e ->
                  v = ["No Such Process"] /\ absent o w').
Proof.
  rewrite (GpuProcess_cmdline_eq os self w o Hlive).
  destruct (host_cmdline _ _) as [[|arg args]|e0]; do 2 eexists;
    (split; [reflexivity|]); (split; [first [apply quiet_refl | apply quiet_evict]|]);
    (split; [discriminate|]); intros; try discriminate.
  split; [reflexivity | apply absent_evict].
Qed.

Lemma GpuProcess_cpu_percent_total :
  exists v w', GpuProcess_cpu_percent os self w = (Return v, w') /\ quiet w w'
    /\ (forall e, host_cpu_percent os (hp_pid (host o)) = Fails e ->
                  v = (0 # 1) /\ absent o w').
Proof.
  rewrite (GpuProcess_cpu_percent_eq os self w o Hlive).
  destruct (host_cpu_percent _ _) as [v|e0]; do 2 eexists;
    (split; [reflexivity|]); (split; [first [apply quiet_refl | apply quiet_evict]|]);
    intros; try discriminate.
  split; [reflexivity | apply absent_evict].
Qed.

Lemma GpuProcess_memory_percent_total :
  exists v w', GpuProcess_memory_percent os self w = (Return v, w') /\ quiet w w'
    /\ (forall e, host_memory_percent os (hp_pid (host o)) = Fails e ->
                  v = (0 # 1) /\ absent o w').
Proof.
  rewrite (GpuProcess_memory_percent_eq os self w o Hlive).
  destruct (host_memory_percent _ _) as [v|e0]; do 2 eexists;
    (split; [reflexivity|]); (split; [first [apply quiet_refl | apply quiet_evict]|]);
    intros; try discriminate.
  split; [reflexivity | apply absent_evict].
Qed.

Lemma GpuProcess_running_time_total :
  exists v w', GpuProcess_running_time I os self w = (Return v, w') /\ quiet w w'
    /\ (forall e, running_time_cached os self = None ->
                  host_create_time os (hp_pid (host o)) = Fails e ->
                  v = now os - import_time I /\ absent o w').
Proof.
  rewrite (GpuProcess_running_time_eq I os self w o Hlive).
  destruct (running_time_cached os self) as [c|].
  - do 2 eexists. split; [reflexivity|]. split; [apply quiet_refl | discriminate].
  - destruct (host_create_time _ _) as [v|e0]; do 2 eexists;
      (split; [reflexivity|]); (split; [first [apply quiet_refl | apply quiet_evict]|]);
      intros; try discriminate.
    split; [reflexivity | apply absent_evict].
Qed.
End Footprints.

(** * The batch gather *)

Section Gather.
Variables (I : Imports) (os : Host) (self : ref) (w : World) (o : GpuProcess).
Hypothesis Hlive : heap w !! self = Some o.

(** A failure of one of the two direct queries leaves the gather. *)
Lemma gather_host_snapshot_direct_failure e :
  host_is_running os (hp_pid (host o)) = Fails e
  \/ ((exists b, host_is_running os (hp_pid (host o)) = Ok b)
      /\ host_status os (hp_pid (host o)) = Fails e) ->
  gather_host_snapshot I os self w = (Raise (Psutil e), log_gather (_pid o) w).
Proof.
  intros H. unfold gather_host_snapshot.
  rewrite (bind_step _ _ _ _ _ (self_obj_live _ _ _ Hlive)).
  unfold bind at 1. unfold modify.
  destruct H as [H | [[b Hb] H]].
  - rewrite H. reflexivity.
  - rewrite Hb, H. reflexivity.
Qed.

(** With both direct queries answered, the gather completes whatever
    the wrapped operations meet. *)
Lemma gather_host_snapshot_total b st :
  host_is_running os (hp_pid (host o)) = Ok b ->
  host_status os (hp_pid (host o)) = Ok st ->
  exists hs w1 o1,
    gather_host_snapshot I os self w
    = (Return hs,
       if CLI_MODE w
       then set_HOST_SNAPSHOTS (<[_pid o := hs]> (HOST_SNAPSHOTS w1)) w1
       else w1)
    /\ quiet (log_gather (_pid o) w) w1
    /\ heap w1 !! self = Some o1 /\ same_handle o o1
    /\ hs_cpu_percent_string hs = cpu_percent_string_of (hs_cpu_percent hs)
    /\ hs_is_running hs = b
    /\ hs_cmdline hs <> []
    /\ (forall e, _username o = None ->
          host_username os (hp_pid (host o)) = Fails e ->
          hs_username hs = "N/A" /\ absent o w1)
    /\ (forall e, host_name os (hp_pid (host o)) = Fails e ->
          hs_name hs = "N/A" /\ absent o w1)
    /\ (forall e, host_cmdline os (hp_pid (host o)) = Fails e ->
          hs_cmdline hs = ["No Such Process"] /\ absent o w1)
    /\ (forall e, host_cpu_percent os (hp_pid (host o)) = Fails e ->
          hs_cpu_percent hs = (0 # 1) /\ absent o w1)
    /\ (forall e, host_memory_percent os (hp_pid (host o)) = Fails e ->
          hs_memory_percent hs = (0 # 1) /\ absent o w1)
    /\ (forall e, running_time_cached os self = None ->
          host_create_time os (hp_pid (host o)) = Fails e ->
          hs_running_time hs = now os - import_time I /\ absent o w1).
Proof.
  intros Hrun Hstatus. unfold gather_host_snapshot.
  rewrite (bind_step _ _ _ _ _ (self_obj_live _ _ _ Hlive)).
  unfold bind at 1. unfold modify.
  rewrite Hrun, Hstatus.
  unfold bind at 1. unfold query at 1.
  unfold bind at 1. unfold query at 1.
  assert (Hl0 : heap (log_gather (_pid o) w) !! self = Some o) by exact Hlive.
  destruct (GpuProcess_username_total os self (log_gather (_pid o) w) o Hl0)
    as (u & w1 & E1 & Q1 & F1).
  destruct (quiet_live _ _ _ _ Q1 Hl0) as (o1 & Hl1 & S1).
  destruct (GpuProcess_name_total os self w1 o1 Hl1)
    as (n & w2 & E2 & Q2 & F2).
  destruct (quiet_live _ _ _ _ Q2 Hl1) as (o2 & Hl2 & S2).
  destruct (GpuProcess_cmdline_total os self w2 o2 Hl2)
    as (c & w3 & E3 & Q3 & N3 & F3).
  destruct (quiet_live _ _ _ _ Q3 Hl2) as (o3 & Hl3 & S3).
  destruct (GpuProcess_cpu_percent_total os self w3 o3 Hl3)
    as (cpu & w4 & E4 & Q4 & F4).
  destruct (quiet_live _ _ _ _ Q4 Hl3) as (o4 & Hl4 & S4).
  destruct (GpuProcess_memory_percent_total os self w4 o4 Hl4)
    as (mem & w5 & E5 & Q5 & F5).
  destruct (quiet_live _ _ _ _ Q5 Hl4) as (o5 & Hl5 & S5).
  destruct (GpuProcess_running_time_total I os self w5 o5 Hl5)
    as (rt & w6 & E6 & Q6 & F6).
  destruct (quiet_live _ _ _ _ Q6 Hl5) as (o6 & Hl6 & S6).
  rewrite (bind_step _ _ _ _ _ E1), (bind_step _ _ _ _ _ E2),
    (bind_step _ _ _ _ _ E3), (bind_step _ _ _ _ _ E4),
    (bind_step _ _ _ _ _ E5), (bind_step _ _ _ _ _ E6).
  rewrite (bind_step _ _ _ _ _ (self_obj_live _ _ _ Hl6)).
  unfold bind, modify, ret.
  pose proof (same_handle_trans _ _ _ S1 S2) as S02.
  pose proof (same_handle_trans _ _ _ S02 S3) as S03.
  pose proof (same_handle_trans _ _ _ S03 S4) as S04.
  pose proof (same_handle_trans _ _ _ S04 S5) as S05.
  pose proof (same_handle_trans _ _ _ S05 S6) as S06.
  pose proof (quiet_trans _ _ _ Q1 Q2) as Q02.
  pose proof (quiet_trans _ _ _ Q02 Q3) as Q03.
  pose proof (quiet_trans _ _ _ Q03 Q4) as Q04.
  pose proof (quiet_trans _ _ _ Q04 Q5) as Q05.
  pose proof (quiet_trans _ _ _ Q05 Q6) as Q06.
  assert (Hcli : CLI_MODE w6 = CLI_MODE w) by (rewrite (quiet_cli _ _ Q06); reflexivity).
  assert (Hpid : _pid o6 = _pid o) by apply S06.
  rewrite Hcli, Hpid.
  eexists _, w6, o6. split; [reflexivity|].
  split; [exact Q06|]. split; [exact Hl6|]. split; [exact S06|].
  split; [reflexivity|]. split; [reflexivity|].
  split.
  { simpl. destruct b.
    - unfold normalize_cmdline. destruct (1 <? length c)%nat eqn:E.
      + destruct (strip c_nul (join (str1 c_nul) c)) as [|a r]; simpl; [discriminate|].
        destruct (Ascii.eqb a c_nul); [discriminate|].
        destruct (split c_nul r); discriminate.
      + exact N3.
    - discriminate. }
  assert (Hhost : forall o', same_handle o o' -> hp_pid (host o') = hp_pid (host o)).
  { intros o' (_ & -> & _). reflexivity. }
  assert (Q26 : quiet w2 w6) by eauto using quiet_trans.
  assert (Q36 : quiet w3 w6) by eauto using quiet_trans.
  assert (Q46 : quiet w4 w6) by eauto using quiet_trans.
  assert (Q16 : quiet w1 w6) by eauto using quiet_trans.
  split; [|split; [|split; [|split; [|split]]]]; intros e; intros; (split; simpl).
  - apply (F1 e); assumption.
  - eapply absent_quiet; [apply (F1 e); assumption | exact Q16].
  - apply (F2 e). rewrite (Hhost _ S1). assumption.
  - eapply absent_same_handle; [exact S1|].
    eapply absent_quiet; [apply (F2 e); rewrite (Hhost _ S1); assumption | exact Q26].
  - destruct (F3 e) as [-> _]; [rewrite (Hhost _ S02); assumption|].
    destruct b; reflexivity.
  - eapply absent_same_handle; [exact S02|].
    eapply absent_quiet; [apply (F3 e); rewrite (Hhost _ S02); assumption | exact Q36].
  - apply (F4 e). rewrite (Hhost _ S03). assumption.
  - eapply absent_same_handle; [exact S03|].
    eapply absent_quiet; [apply (F4 e); rewrite (Hhost _ S03); assumption | exact Q46].
  - apply (F5 e). rewrite (Hhost _ S04). assumption.
  - eapply absent_same_handle; [exact S04|].
    eapply absent_quiet; [apply (F5 e); rewrite (Hhost _ S04); assumption | exact Q6].
  - apply (F6 e); [|rewrite (Hhost _ S05)]; assumption.
  - eapply absent_same_handle; [exact S05|].
    apply (F6 e); [|rewrite (Hhost _ S05)]; assumption.
Qed.
End Gather.

(** * [as_snapshot] *)

Section AsSnapshot.
Variables (I : Imports) (os : Host) (self : ref) (w : World) (o : GpuProcess).
Hypothesis Hlive : heap w !! self = Some o.

(** A cached host snapshot is reused: no query, no change of the world. *)
Lemma as_snapshot_cached hs :
  HOST_SNAPSHOTS w !! _pid o = Some hs ->
  as_snapshot I os self w = (Return (Some (compose_snapshot self o hs)), w).
Proof.
  intros Hc. unfold as_snapshot, auto_garbage_clean.
  rewrite (bind_step _ _ _ _ _ (self_obj_live _ _ _ Hlive)).
  unfold bind at 1. rewrite Hc. unfold bind at 1. unfold ret at 1.
  rewrite (bind_step _ _ _ _ _ (self_obj_live _ _ _ Hlive)).
  reflexivity.
Qed.

Hypothesis Hmiss : HOST_SNAPSHOTS w !! _pid o = None.

Lemma as_snapshot_direct_failure e :
  host_is_running os (hp_pid (host o)) = Fails e
  \/ ((exists b, host_is_running os (hp_pid (host o)) = Ok b)
      /\ host_status os (hp_pid (host o)) = Fails e) ->
  as_snapshot I os self w
  = (Return None,
     evict (_pid o) (device o) (log_gather (_pid o) w)).
Proof.
  intros H. unfold as_snapshot.
  eapply auto_garbage_clean_catch with (e := e) (o1 := o); [|exact Hlive].
  rewrite (bind_step _ _ _ _ _ (self_obj_live _ _ _ Hlive)).
  unfold bind at 1. rewrite Hmiss.
  apply bind_fail.
  apply (gather_host_snapshot_direct_failure I os self w o Hlive e H).
Qed.

Lemma as_snapshot_of_gather hs w2 o2 :
  gather_host_snapshot I os self w = (Return hs, w2) ->
  heap w2 !! self = Some o2 ->
  as_snapshot I os self w = (Return (Some (compose_snapshot self o2 hs)), w2).
Proof.
  intros Hg Hl. unfold as_snapshot. apply auto_garbage_clean_pass.
  rewrite (bind_step _ _ _ _ _ (self_obj_live _ _ _ Hlive)).
  unfold bind at 1. rewrite Hmiss.
  rewrite (bind_step _ _ _ _ _ Hg).
  rewrite (bind_step _ _ _ _ _ (self_obj_live _ _ _ Hl)).
  reflexivity.
Qed.
End AsSnapshot.

(** C6, as the code has it, on the string of a snapshot that
    [as_snapshot] has just derived (no cached host snapshot was reused).
    Below 1000 the string is the value rounded to one decimal place, ties
    to even, followed by the percent sign: every value from 999.95 up to
    1000 is in this band and is shown as 1000.0 with the sign. From 1000 up to
    but not including 10000 it is the truncated integer, of four digits,
    followed by the sign. At or above 10000 it is the literal 9999+ with
    the sign. So 0.0 gives 0.0, 1000.0 gives 1000, 9999.9 gives 9999 and
    10000.0 gives 9999+, each with the sign. *)
Theorem cpu_percent_string_bands :
  (forall I os self w o s w',
      heap w !! self = Some o ->
      HOST_SNAPSHOTS w !! _pid o = None ->
      as_snapshot I os self w = (Return (Some s), w') ->
      let x := s_cpu_percent s in
      s_cpu_percent_string s = cpu_percent_string_of x
      /\ ((x < 1000 # 1)%Q -> s_cpu_percent_string s = format_1f x +:+ "%")
      /\ ((0 <= x)%Q -> (x < 1000 # 1)%Q ->
          exists tenths,
            s_cpu_percent_string s
            = (str_of_Z (tenths / 10) +:+ "." +:+ str_of_Z (tenths mod 10)) +:+ "%"
            /\ 2 * Z.abs (10 * Qnum x - tenths * QDen x) <= QDen x
            /\ 0 <= tenths <= 10000)
      /\ ((1000 # 1 <= x)%Q -> (x < 10000 # 1)%Q ->
          s_cpu_percent_string s = str_of_Z (int_of_float x) +:+ "%"
          /\ 1000 <= int_of_float x <= 9999)
      /\ ((10000 # 1 <= x)%Q -> s_cpu_percent_string s = "9999+%"))
  /\ (forall x, (19999 # 20 <= x)%Q -> (x < 1000 # 1)%Q ->
        cpu_percent_string_of x = "1000.0%")
  /\ cpu_percent_string_of 0 = "0.0%"
  /\ cpu_percent_string_of (1000 # 1) = "1000%"
  /\ cpu_percent_string_of double_9999_9 = "9999%"
  /\ cpu_percent_string_of (10000 # 1) = "9999+%"
  /\ cpu_percent_string_of (19998 # 20) = "999.9%"
  /\ cpu_percent_string_of (19999 # 20) = "1000.0%"
  /\ cpu_percent_string_of double_999_95 = "1000.0%".
Proof.
  split; [|split; [|repeat split]].
  2:{ intros x Hlo Hhi.
      destruct (cpu_percent_string_of_bands x) as (B1 & _). rewrite (B1 Hhi).
      unfold format_1f, Qle, Qlt in *. simpl in Hlo, Hhi.
      assert (Hd : 0 < QDen x) by apply Pos2Z.is_pos.
      destruct (Z.ltb_spec (Qnum x) 0); [lia|].
      rewrite Z.abs_eq by lia.
      rewrite (round_half_even_top (10 * Qnum x) (QDen x)) by lia.
      reflexivity. }
  intros I os self w o s w' Hlive Hmiss Hsnap.
  assert (Hstr : s_cpu_percent_string s = cpu_percent_string_of (s_cpu_percent s)).
  { destruct (host_is_running os (hp_pid (host o))) as [b|e] eqn:Hrun.
    - destruct (host_status os (hp_pid (host o))) as [st|e] eqn:Hst.
      + destruct (gather_host_snapshot_total I os self w o Hlive b st Hrun Hst)
          as (hs & w1 & o1 & Hg & _ & Hl1 & _ & Hcpu & _).
        assert (Hl : heap (if CLI_MODE w
                           then set_HOST_SNAPSHOTS
                                  (<[_pid o := hs]> (HOST_SNAPSHOTS w1)) w1
                           else w1) !! self = Some o1)
          by (destruct (CLI_MODE w); exact Hl1).
        pose proof (as_snapshot_of_gather I os self w o Hlive Hmiss hs _ o1 Hg Hl) as Hs.
        rewrite Hsnap in Hs. injection Hs as -> _. exact Hcpu.
      + rewrite (as_snapshot_direct_failure I os self w o Hlive Hmiss e) in Hsnap
          by (right; eauto).
        discriminate.
    - rewrite (as_snapshot_direct_failure I os self w o Hlive Hmiss e) in Hsnap
        by (left; assumption).
      discriminate. }
  intros x. split; [exact Hstr|]. rewrite Hstr. fold x.
  destruct (cpu_percent_string_of_bands x) as (B1 & B2 & B3).
  split; [exact B1|]. split; [|split; [|exact B3]].
  - intros Hpos Hlt. rewrite (B1 Hlt). unfold format_1f.
    assert (Hn : 0 <= Qnum x) by (unfold Qle in Hpos; simpl in Hpos; lia).
    assert (Hd : 0 < QDen x) by apply Pos2Z.is_pos.
    destruct (Z.ltb_spec (Qnum x) 0); [lia|].
    rewrite Z.abs_eq by exact Hn.
    exists (round_half_even (10 * Qnum x) (QDen x)).
    split; [reflexivity|].
    destruct (round_half_even_nearest (10 * Qnum x) (QDen x)) as [Hnear Hnn];
      [lia | lia |].
    split; [exact Hnear|]. split; [exact Hnn|].
    apply round_half_even_mono_bound; [lia | lia |].
    unfold Qlt in Hlt. simpl in Hlt. lia.
  - intros Hlo Hhi. split; [apply B2; assumption | apply int_of_float_band; assumption].
Qed.

Lemma cpu_percent_string_bands_witness :
  exists s w',
    as_snapshot sample_imports (cpu_host double_9999_9) 0%nat two_devices
    = (Return (Some s), w')
    /\ s_cpu_percent_string s = str_of_Z (int_of_float (s_cpu_percent s)) +:+ "%"
    /\ s_cpu_percent_string s = "9999%".
Proof.
  eexists _, _. split; [vm_compute; reflexivity|].
  split; [|vm_compute; reflexivity].
  eapply (proj1 cpu_percent_string_bands sample_imports (cpu_host double_9999_9)
            0%nat two_devices);
    [vm_compute; reflexivity | vm_compute; reflexivity | vm_compute; reflexivity
     | vm_compute; discriminate | vm_compute; reflexivity].
Defined.

(** C6 as stated fails at 999.95: the value is below 1000, so it is in
    the one-decimal band, and it is shown as 1000.0 with the sign. *)
Lemma cpu_percent_string_999_95 :
  (double_999_95 < 1000 # 1)%Q
  /\ exists s w',
       as_snapshot sample_imports (cpu_host double_999_95) 0%nat two_devices
       = (Return (Some s), w')
       /\ s_cpu_percent s = double_999_95
       /\ s_cpu_percent_string s = "1000.0%".
Proof.
  split; [reflexivity|].
  eexists _, _. split; [vm_compute; reflexivity|].
  split; reflexivity.
Qed.

(** * The garbage-collection policy *)




Lemma sample_process_live : heap two_devices !! 0%nat = Some sample_process.
Proof. vm_compute. reflexivity. Qed.



(** * The command line of a device process *)

(** C9: on a live object [cmdline] always returns, and never the empty
    sequence; an empty list from the collaborator becomes the one-element
    'Zombie Process', a failure of the collaborator ('no such process'
    among them) the one-element default 'No Such Process', and a non-empty
    list is returned as it is. *)
Theorem cmdline_never_empty os self w o :
  heap w !! self = Some o ->
  exists v w',
    GpuProcess_cmdline os self w = (Return v, w')
    /\ v <> []
    /\ (host_cmdline os (hp_pid (host o)) = Ok [] -> v = ["Zombie Process"])
    /\ (host_cmdline os (hp_pid (host o)) = Fails NoSuchProcess ->
        v = ["No Such Process"])
    /\ (forall args, args <> [] -> host_cmdline os (hp_pid (host o)) = Ok args ->
        v = args).
Proof.
  intros Hlive. rewrite (GpuProcess_cmdline_eq os self w o Hlive).
  destruct (host_cmdline os (hp_pid (host o))) as [[|arg args]|e];
    eexists _, _; (split; [reflexivity|]); repeat split;
    intros; congruence.
Qed.

Lemma cmdline_never_empty_witness :
  exists v w',
    GpuProcess_cmdline gone_host 0%nat two_devices = (Return v, w')
    /\ v <> []
    /\ (host_cmdline gone_host 7 = Fails NoSuchProcess -> v = ["No Such Process"]).
Proof.
  destruct (cmdline_never_empty gone_host 0%nat two_devices sample_process
              sample_process_live) as (v & w' & H1 & H2 & _ & H3 & _).
  exists v, w'. repeat split; assumption.
Defined.

(** * The default of [create_time] *)

(** C10: whenever the creation-time query fails on a live object,
    [create_time] returns the time stamp taken when the module was
    imported. Two such calls, on any objects, in any worlds and at any
    clock readings, return that one value; it does not depend on the clock
    of the call. *)
Theorem create_time_default_fixed_at_import I os1 os2 self1 self2 w1 w2 o1 o2 e1 e2 :
  heap w1 !! self1 = Some o1 ->
  heap w2 !! self2 = Some o2 ->
  host_create_time os1 (hp_pid (host o1)) = Fails e1 ->
  host_create_time os2 (hp_pid (host o2)) = Fails e2 ->
  fst (GpuProcess_create_time I os1 self1 w1) = Return (import_time I)
  /\ fst (GpuProcess_create_time I os2 self2 w2) = Return (import_time I)
  /\ fst (GpuProcess_create_time I os1 self1 w1)
     = fst (GpuProcess_create_time I os2 self2 w2).
Proof.
  intros Hl1 Hl2 H1 H2.
  rewrite (GpuProcess_create_time_eq I os1 self1 w1 o1 Hl1), H1.
  rewrite (GpuProcess_create_time_eq I os2 self2 w2 o2 Hl2), H2.
  repeat split.
Qed.

(** * Construction of handles *)

Section Construction.
Variable I : Imports.

Lemma HostProcess_call_cases pid w :
  let p := default (getpid I) pid in
  (exists h, HostProcess_INSTANCES w !! p = Some h
             /\ HostProcess_call I pid w = (h, w))
  \/ (HostProcess_INSTANCES w !! p = None
      /\ HostProcess_call I pid w
         = (mkHostProcess (next_ref w) p,
            set_HostProcess_INSTANCES
              (<[p := mkHostProcess (next_ref w) p]> (HostProcess_INSTANCES w))
              (set_next_ref (S (next_ref w)) w))).
Proof.
  intros p. unfold HostProcess_call, HostProcess_new. fold p.
  destruct (HostProcess_INSTANCES w !! p) as [h|]; [left; eauto | right; auto].
Qed.

(** What [HostProcess(pid)] leaves alone. *)
Lemma HostProcess_call_frame pid w :
  let p := default (getpid I) pid in
  let h := fst (HostProcess_call I pid w) in
  let w' := snd (HostProcess_call I pid w) in
  GpuProcess_INSTANCES w' = GpuProcess_INSTANCES w
  /\ HOST_SNAPSHOTS w' = HOST_SNAPSHOTS w
  /\ CLI_MODE w' = CLI_MODE w
  /\ heap w' = heap w
  /\ gathers w' = gathers w
  /\ (next_ref w <= next_ref w')%nat
  /\ HostProcess_INSTANCES w' !! p = Some h
  /\ (forall q, q <> p ->
        HostProcess_INSTANCES w' !! q = HostProcess_INSTANCES w !! q).
Proof.
  intros p h w'. subst h w'.
  destruct (HostProcess_call_cases pid w) as [(h & Hh & ->) | [Hn ->]]; fold p; simpl.
  - repeat split; auto.
  - split; [reflexivity|]. split; [reflexivity|]. split; [reflexivity|].
    split; [reflexivity|]. split; [reflexivity|]. split; [lia|].
    split; [apply lookup_insert_eq|].
    intros q Hq. apply lookup_insert_ne. congruence.
Qed.

(** What [__init__] leaves alone, and what it writes. *)
Lemma GpuProcess_init_frame self pid dev mem ty w :
  let w1 := snd (HostProcess_call I (Some pid) w) in
  let w' := GpuProcess_init I self pid dev mem ty w in
  GpuProcess_INSTANCES w' = GpuProcess_INSTANCES w
  /\ HOST_SNAPSHOTS w' = HOST_SNAPSHOTS w
  /\ CLI_MODE w' = CLI_MODE w
  /\ gathers w' = gathers w
  /\ next_ref w' = next_ref w1
  /\ HostProcess_INSTANCES w' = HostProcess_INSTANCES w1
  /\ exists o, heap w' = <[self := o]> (heap w)
               /\ _pid o = pid /\ device o = dev
               /\ host o = fst (HostProcess_call I (Some pid) w).
Proof.
  intros w1 w'. subst w1 w'. unfold GpuProcess_init.
  pose proof (HostProcess_call_frame (Some pid) w) as F. simpl in F.
  destruct (HostProcess_call I (Some pid) w) as [h w1]. simpl in *.
  destruct F as (Fg & Fs & Fc & Fh & Fl & _).
  repeat split; auto.
  eexists. rewrite Fh. repeat split.
Qed.

(** The whole call, on the tables and the cache. *)
Lemma GpuProcess_call_frame pid dev mem ty w :
  let r := fst (GpuProcess_call I pid dev mem ty w) in
  let w' := snd (GpuProcess_call I pid dev mem ty w) in
  GpuProcess_INSTANCES w' !! (pid, dev) = Some r
  /\ (forall k, k <> (pid, dev) ->
        GpuProcess_INSTANCES w' !! k = GpuProcess_INSTANCES w !! k)
  /\ (forall q, q <> pid ->
        HostProcess_INSTANCES w' !! q = HostProcess_INSTANCES w !! q)
  /\ is_Some (HostProcess_INSTANCES w' !! pid)
  /\ CLI_MODE w' = CLI_MODE w
  /\ gathers w' = gathers w
  /\ match GpuProcess_INSTANCES w !! (pid, dev) with
     | Some r0 => r = r0 /\ HOST_SNAPSHOTS w' = HOST_SNAPSHOTS w
                  /\ GpuProcess_INSTANCES w' = GpuProcess_INSTANCES w
     | None => r = next_ref w
               /\ HOST_SNAPSHOTS w' = delete pid (HOST_SNAPSHOTS w)
     end.
Proof.
  intros r w'. subst r w'. unfold GpuProcess_call, GpuProcess_new.
  destruct (GpuProcess_INSTANCES w !! (pid, dev)) as [r0|] eqn:Hk.
  - simpl.
    destruct (GpuProcess_init_frame r0 pid dev mem ty w)
      as (Fg & Fs & Fc & Fl & Fn & Fh & _).
    pose proof (HostProcess_call_frame (Some pid) w) as H. simpl in H.
    destruct H as (_ & _ & _ & _ & _ & _ & Hp & Hq).
    rewrite Fg, Fs, Fc, Fl, Fh. repeat split; auto.
  - simpl.
    set (w1 := set_next_ref (S (next_ref w)) w).
    set (w2 := GpuProcess_init I (next_ref w) pid dev mem ty w1).
    set (w3 := set_HOST_SNAPSHOTS _ _).
    destruct (GpuProcess_init_frame (next_ref w) pid dev mem ty w1)
      as (Fg & Fs & Fc & Fl & Fn & Fh & _). fold w2 in Fg, Fs, Fc, Fl, Fn, Fh.
    destruct (GpuProcess_init_frame (next_ref w) pid dev mem ty w3)
      as (Gg & Gs & Gc & Gl & Gn & Gh & _).
    pose proof (HostProcess_call_frame (Some pid) w1) as H1. simpl in H1.
    destruct H1 as (_ & _ & _ & _ & _ & _ & Hp1 & Hq1).
    pose proof (HostProcess_call_frame (Some pid) w3) as H3. simpl in H3.
    destruct H3 as (_ & _ & _ & _ & _ & _ & Hp3 & Hq3).
    rewrite Gg, Gs, Gc, Gl, Gh.
    assert (E3g : GpuProcess_INSTANCES w3
                  = <[(pid, dev) := next_ref w]> (GpuProcess_INSTANCES w)).
    { subst w3. simpl. rewrite Fg. reflexivity. }
    assert (E3h : HostProcess_INSTANCES w3 = HostProcess_INSTANCES w2)
      by reflexivity.
    assert (E3s : HOST_SNAPSHOTS w3 = delete pid (HOST_SNAPSHOTS w))
      by (subst w3; simpl; rewrite Fs; reflexivity).
    assert (E3c : CLI_MODE w3 = CLI_MODE w) by (subst w3; simpl; rewrite Fc; reflexivity).
    assert (E3l : gathers w3 = gathers w) by (subst w3; simpl; rewrite Fl; reflexivity).
    rewrite E3g, E3s, E3c, E3l.
    split; [apply lookup_insert_eq|].
    split; [intros k Hne; apply lookup_insert_ne; congruence|].
    split.
    { intros q Hne. etransitivity; [apply (Hq3 q Hne)|].
      change (HostProcess_INSTANCES w2 !! q = HostProcess_INSTANCES w !! q).
      rewrite Fh. apply (Hq1 q Hne). }
    split; [rewrite Hp3; eauto|].
    repeat split.
Qed.
End Construction.

(** * The cache is invalidated for a new device handle *)

(** C8: constructing a device-process handle whose identity is not in the
    device-process table deletes the entry of its pid from the cache of
    host snapshots; the cache entries of every other pid, the
    device-process table at every other identity and the host table at
    every other pid are as before. *)
Theorem new_handle_invalidates_host_snapshot I pid dev mem ty w :
  GpuProcess_INSTANCES w !! (pid, dev) = None ->
  let w' := snd (GpuProcess_call I pid dev mem ty w) in
  HOST_SNAPSHOTS w' !! pid = None
  /\ (forall q, q <> pid -> HOST_SNAPSHOTS w' !! q = HOST_SNAPSHOTS w !! q)
  /\ (forall k, k <> (pid, dev) ->
        GpuProcess_INSTANCES w' !! k = GpuProcess_INSTANCES w !! k)
  /\ (forall q, q <> pid ->
        HostProcess_INSTANCES w' !! q = HostProcess_INSTANCES w !! q).
Proof.
  intros Hnew w'. subst w'.
  destruct (GpuProcess_call_frame I pid dev mem ty w)
    as (_ & Hg & Hh & _ & _ & _ & Hc).
  rewrite Hnew in Hc. destruct Hc as [_ Hc]. rewrite Hc.
  split; [apply lookup_delete_eq|].
  split; [intros q Hq; apply lookup_delete_ne; congruence|].
  split; assumption.
Qed.

Lemma new_handle_invalidates_host_snapshot_witness :
  is_Some (HOST_SNAPSHOTS warmed_world !! 7)
  /\ HOST_SNAPSHOTS
       (snd (GpuProcess_call sample_imports 7 5%nat None None warmed_world)) !! 7
     = None.
Proof.
  split; [vm_compute; eauto|].
  apply (new_handle_invalidates_host_snapshot sample_imports 7 5%nat None None
           warmed_world).
  vm_compute. reflexivity.
Defined.

Lemma create_time_default_fixed_at_import_witness :
  now gone_host <> now gone_host_later
  /\ fst (GpuProcess_create_time sample_imports gone_host 0%nat two_devices)
     = Return 1000000
  /\ fst (GpuProcess_create_time sample_imports gone_host_later 2%nat two_devices)
     = Return 1000000.
Proof.
  split; [discriminate|].
  destruct (create_time_default_fixed_at_import sample_imports gone_host
              gone_host_later 0%nat 2%nat two_devices two_devices
              sample_process
              (mkGpuProcess 7 (mkHostProcess 1%nat 7) 1%nat (Bytes 2048) "2048B" "G" None)
              NoSuchProcess NoSuchProcess)
    as (H1 & H2 & _);
    [apply sample_process_live | vm_compute; reflexivity | reflexivity | reflexivity |].
  split; assumption.
Defined.

(** * One gather per tick *)

Lemma as_snapshot_miss_gathers I os self w o :
  heap w !! self = Some o ->
  HOST_SNAPSHOTS w !! _pid o = None ->
  gathers (snd (as_snapshot I os self w)) = (gathers w ++ [_pid o])%list.
Proof.
  intros Hlive Hmiss.
  destruct (host_is_running os (hp_pid (host o))) as [b|e] eqn:Hrun.
  - destruct (host_status os (hp_pid (host o))) as [st|e] eqn:Hst.
    + destruct (gather_host_snapshot_total I os self w o Hlive b st Hrun Hst)
        as (hs & w1 & o1 & Hg & Hq & Hl1 & _).
      assert (Hl : heap (if CLI_MODE w
                         then set_HOST_SNAPSHOTS
                                (<[_pid o := hs]> (HOST_SNAPSHOTS w1)) w1
                         else w1) !! self = Some o1)
        by (destruct (CLI_MODE w); exact Hl1).
      rewrite (as_snapshot_of_gather I os self w o Hlive Hmiss hs _ o1 Hg Hl).
      simpl. destruct (CLI_MODE w); simpl; rewrite (quiet_gathers _ _ Hq); reflexivity.
    + rewrite (as_snapshot_direct_failure I os self w o Hlive Hmiss e)
        by (right; eauto).
      reflexivity.
  - rewrite (as_snapshot_direct_failure I os self w o Hlive Hmiss e)
      by (left; assumption).
    reflexivity.
Qed.




(** * The invariant of the identity tables *)

Lemma shrinks_refl w : shrinks w w.
Proof.
  split; try reflexivity. intros r. destruct (heap w !! r); constructor. auto.
Qed.

Lemma shrinks_trans w1 w2 w3 : shrinks w1 w2 -> shrinks w2 w3 -> shrinks w1 w3.
Proof.
  intros [N1 H1 G1 T1] [N2 H2 G2 T2]. split.
  - congruence.
  - intros r. specialize (H1 r). specialize (H2 r).
    destruct H1 as [o o' [Hp Hd]|]; inversion H2 as [? o'' [Hp' Hd']|]; subst;
      constructor. split; congruence.
  - etransitivity; eassumption.
  - etransitivity; eassumption.
Qed.

Lemma quiet_shrinks w w' : quiet w w' -> shrinks w w'.
Proof.
  intros [_ _ _ N H G T]. split; auto.
  intros r. destruct (H r) as [o o' (Hp & _ & Hd & _)|]; constructor. auto.
Qed.

(** A change of the cache, of the gather log or of the mode alone. *)
Lemma shrinks_same_tables w w' :
  next_ref w' = next_ref w -> heap w' = heap w ->
  GpuProcess_INSTANCES w' = GpuProcess_INSTANCES w ->
  HostProcess_INSTANCES w' = HostProcess_INSTANCES w ->
  shrinks w w'.
Proof.
  intros N H G T. split; [exact N | | rewrite G; reflexivity | rewrite T; reflexivity].
  intros r. rewrite H. destruct (heap w !! r); constructor. auto.
Qed.

Lemma wf_shrinks w w' : wf w -> shrinks w w' -> wf w'.
Proof.
  intros [Wh Wi Wg Wp] [N H G T]. split.
  - intros p h Hp. rewrite N. apply Wh. eapply lookup_weaken; eassumption.
  - intros p1 p2 h1 h2 H1 H2. apply Wi; eapply lookup_weaken; eassumption.
  - intros p d r Hr.
    destruct (Wg p d r) as (o & Ho & Hpid & Hdev);
      [eapply lookup_weaken; eassumption|].
    specialize (H r). rewrite Ho in H.
    inversion H as [? o' [Hp' Hd'] E1 E2|]; subst.
    exists o'. split; [reflexivity|]. split; congruence.
  - intros r o' Ho'. rewrite N. specialize (H r). rewrite Ho' in H.
    inversion H as [o ? _ E1 E2|]; subst. eapply Wp; eauto.
Qed.

Lemma wf_initial_world : wf initial_world.
Proof.
  split; intros *; simpl; rewrite ?lookup_empty; discriminate.
Qed.

Section Steps.
Variables (I : Imports) (os : Host) (self : ref) (w : World).

Lemma create_time_shrinks : shrinks w (snd (GpuProcess_create_time I os self w)).
Proof.
  destruct (heap w !! self) as [o|] eqn:Hl.
  - rewrite (GpuProcess_create_time_eq I os self w o Hl).
    destruct (host_create_time _ _); simpl;
      [apply shrinks_refl | apply quiet_shrinks, quiet_evict].
  - unfold GpuProcess_create_time, auto_garbage_clean, bind, self_obj. rewrite Hl.
    apply shrinks_refl.
Qed.

Lemma running_time_shrinks : shrinks w (snd (GpuProcess_running_time I os self w)).
Proof.
  destruct (heap w !! self) as [o|] eqn:Hl.
  - destruct (GpuProcess_running_time_total I os self w o Hl) as (v & w' & -> & Hq & _).
    apply quiet_shrinks, Hq.
  - unfold GpuProcess_running_time.
    destruct (running_time_cached os self); [apply shrinks_refl|].
    unfold GpuProcess_create_time, auto_garbage_clean, bind, self_obj.
    rewrite Hl. apply shrinks_refl.
Qed.

Lemma username_shrinks : shrinks w (snd (GpuProcess_username os self w)).
Proof.
  destruct (heap w !! self) as [o|] eqn:Hl.
  - destruct (GpuProcess_username_total os self w o Hl) as (v & w' & -> & Hq & _).
    apply quiet_shrinks, Hq.
  - unfold GpuProcess_username, auto_garbage_clean, bind, self_obj. rewrite Hl.
    apply shrinks_refl.
Qed.

Lemma name_shrinks : shrinks w (snd (GpuProcess_name os self w)).
Proof.
  destruct (heap w !! self) as [o|] eqn:Hl.
  - destruct (GpuProcess_name_total os self w o Hl) as (v & w' & -> & Hq & _).
    apply quiet_shrinks, Hq.
  - unfold GpuProcess_name, auto_garbage_clean, bind, self_obj. rewrite Hl.
    apply shrinks_refl.
Qed.

Lemma cpu_percent_shrinks : shrinks w (snd (GpuProcess_cpu_percent os self w)).
Proof.
  destruct (heap w !! self) as [o|] eqn:Hl.
  - destruct (GpuProcess_cpu_percent_total os self w o Hl) as (v & w' & -> & Hq & _).
    apply quiet_shrinks, Hq.
  - unfold GpuProcess_cpu_percent, auto_garbage_clean, bind, self_obj. rewrite Hl.
    apply shrinks_refl.
Qed.

Lemma memory_percent_shrinks : shrinks w (snd (GpuProcess_memory_percent os self w)).
Proof.
  destruct (heap w !! self) as [o|] eqn:Hl.
  - destruct (GpuProcess_memory_percent_total os self w o Hl)
      as (v & w' & -> & Hq & _).
    apply quiet_shrinks, Hq.
  - unfold GpuProcess_memory_percent, auto_garbage_clean, bind, self_obj. rewrite Hl.
    apply shrinks_refl.
Qed.

Lemma cmdline_shrinks : shrinks w (snd (GpuProcess_cmdline os self w)).
Proof.
  destruct (heap w !! self) as [o|] eqn:Hl.
  - destruct (GpuProcess_cmdline_total os self w o Hl) as (v & w' & -> & Hq & _).
    apply quiet_shrinks, Hq.
  - unfold GpuProcess_cmdline, auto_garbage_clean, bind, self_obj. rewrite Hl.
    apply shrinks_refl.
Qed.

Lemma as_snapshot_shrinks : shrinks w (snd (as_snapshot I os self w)).
Proof.
  destruct (heap w !! self) as [o|] eqn:Hl.
  - destruct (HOST_SNAPSHOTS w !! _pid o) as [hs|] eqn:Hc.
    + rewrite (as_snapshot_cached I os self w o Hl hs Hc). apply shrinks_refl.
    + assert (Hlog : shrinks w (log_gather (_pid o) w))
        by (apply shrinks_same_tables; reflexivity).
      destruct (host_is_running os (hp_pid (host o))) as [b|e] eqn:Hrun.
      * destruct (host_status os (hp_pid (host o))) as [st|e] eqn:Hst.
        -- destruct (gather_host_snapshot_total I os self w o Hl b st Hrun Hst)
             as (hs & w1 & o1 & Hg & Hq & Hl1 & _).
           assert (Hl' : heap (if CLI_MODE w
                               then set_HOST_SNAPSHOTS
                                      (<[_pid o := hs]> (HOST_SNAPSHOTS w1)) w1
                               else w1) !! self = Some o1)
             by (destruct (CLI_MODE w); exact Hl1).
           rewrite (as_snapshot_of_gather I os self w o Hl Hc hs _ o1 Hg Hl').
           simpl. eapply shrinks_trans; [exact Hlog|].
           eapply shrinks_trans; [apply quiet_shrinks, Hq|].
           destruct (CLI_MODE w);
             [apply shrinks_same_tables; reflexivity | apply shrinks_refl].
        -- rewrite (as_snapshot_direct_failure I os self w o Hl Hc e)
             by (right; eauto).
           simpl. eapply shrinks_trans; [exact Hlog|].
           apply quiet_shrinks, quiet_evict.
      * rewrite (as_snapshot_direct_failure I os self w o Hl Hc e)
          by (left; assumption).
        simpl. eapply shrinks_trans; [exact Hlog|].
        apply quiet_shrinks, quiet_evict.
  - unfold as_snapshot, auto_garbage_clean, bind, self_obj. rewrite Hl.
    apply shrinks_refl.
Qed.

(** An attribute assignment keeps the pid and the device of the object. *)
Lemma shrinks_update o o' :
  heap w !! self = Some o -> _pid o' = _pid o -> device o' = device o ->
  shrinks w (set_heap (<[self := o']> (heap w)) w).
Proof.
  intros Hl Hp Hd. split; try reflexivity. simpl. intros r.
  destruct (decide (self = r)) as [<-|Hne].
  - rewrite lookup_insert_eq, Hl. constructor. auto.
  - rewrite lookup_insert_ne by exact Hne.
    destruct (heap w !! r); constructor. auto.
Qed.

Lemma assign_type_shrinks value : shrinks w (snd (assign_type self value w)).
Proof.
  unfold assign_type, bind, self_obj, modify.
  destruct (heap w !! self) as [o|] eqn:Hl; simpl; [|apply shrinks_refl].
  apply (shrinks_update o); [exact Hl | reflexivity | reflexivity].
Qed.

Lemma set_gpu_memory_shrinks value :
  shrinks w (snd (set_gpu_memory I self value w)).
Proof.
  unfold set_gpu_memory, bind, self_obj, modify.
  destruct (heap w !! self) as [o|] eqn:Hl; simpl; [|apply shrinks_refl].
  apply (shrinks_update o); [exact Hl | reflexivity | reflexivity].
Qed.
End Steps.

Section ConstructionInvariant.
Variable I : Imports.

Lemma wf_HostProcess_call pid w :
  wf w -> wf (snd (HostProcess_call I pid w)).
Proof.
  intros [Wh Wi Wg Wp].
  destruct (HostProcess_call_cases I pid w) as [(h & Hh & ->) | [Hn ->]];
    [split; assumption|].
  set (p := default (getpid I) pid) in *. simpl. split; simpl.
  - intros q h Hq. destruct (decide (p = q)) as [<-|Hne].
    + rewrite lookup_insert_eq in Hq. inversion Hq; subst. simpl. split; [reflexivity | lia].
    + rewrite lookup_insert_ne in Hq by exact Hne.
      destruct (Wh q h Hq). split; [assumption | lia].
  - intros p1 p2 h1 h2 H1 H2 Hid.
    destruct (decide (p = p1)) as [<-|Hne1], (decide (p = p2)) as [<-|Hne2];
      try reflexivity.
    + rewrite lookup_insert_eq in H1. rewrite lookup_insert_ne in H2 by exact Hne2.
      inversion H1; subst. simpl in Hid. destruct (Wh p2 h2 H2). lia.
    + rewrite lookup_insert_eq in H2. rewrite lookup_insert_ne in H1 by exact Hne1.
      inversion H2; subst. simpl in Hid. destruct (Wh p1 h1 H1). lia.
    + rewrite lookup_insert_ne in H1 by exact Hne1.
      rewrite lookup_insert_ne in H2 by exact Hne2. eapply Wi; eassumption.
  - exact Wg.
  - intros r o Ho. specialize (Wp r o Ho). lia.
Qed.

Lemma wf_GpuProcess_init self pid dev mem ty w :
  wf w ->
  (self < next_ref w)%nat ->
  (forall p d, GpuProcess_INSTANCES w !! (p, d) = Some self -> p = pid /\ d = dev) ->
  wf (GpuProcess_init I self pid dev mem ty w).
Proof.
  intros W Hself Hkeys.
  pose proof (wf_HostProcess_call (Some pid) w W) as W1.
  pose proof (HostProcess_call_frame I (Some pid) w) as F. simpl in F.
  destruct F as (Fg & _ & _ & Fh & _ & Fn & _).
  destruct (GpuProcess_init_frame I self pid dev mem ty w)
    as (Gg & _ & _ & _ & Gn & Gt & o & Go & Gpid & Gdev & _).
  set (w' := GpuProcess_init I self pid dev mem ty w) in *.
  set (w1 := snd (HostProcess_call I (Some pid) w)) in *.
  destruct W1 as [Wh Wi Wg Wp]. split.
  - intros p h. rewrite Gt, Gn. apply Wh.
  - intros p1 p2 h1 h2. rewrite Gt. apply Wi.
  - intros p d r. rewrite Gg, Go. intros Hr.
    destruct (decide (self = r)) as [<-|Hne].
    + destruct (Hkeys p d Hr) as [-> ->].
      exists o. rewrite lookup_insert_eq. auto.
    + rewrite lookup_insert_ne by exact Hne.
      rewrite <- Fh. apply Wg. rewrite Fg. exact Hr.
  - intros r o'. rewrite Go, Gn. intros Hr.
    destruct (decide (self = r)) as [<-|Hne]; [lia|].
    rewrite lookup_insert_ne in Hr by exact Hne.
    apply (Wp r o'). rewrite Fh. exact Hr.
Qed.

(** In a well-formed world a registered reference is below the
    allocation counter and is registered under one identity only. *)
Lemma wf_registered w p d r :
  wf w -> GpuProcess_INSTANCES w !! (p, d) = Some r ->
  (r < next_ref w)%nat
  /\ forall p' d', GpuProcess_INSTANCES w !! (p', d') = Some r -> p' = p /\ d' = d.
Proof.
  intros [Wh Wi Wg Wp] Hr.
  destruct (Wg p d r Hr) as (o & Ho & Hpid & Hdev). split.
  - eapply Wp; eassumption.
  - intros p' d' Hr'. destruct (Wg p' d' r Hr') as (o' & Ho' & Hpid' & Hdev').
    rewrite Ho in Ho'. inversion Ho'; subst. auto.
Qed.

Lemma wf_GpuProcess_call pid dev mem ty w :
  wf w -> wf (snd (GpuProcess_call I pid dev mem ty w)).
Proof.
  intros W. unfold GpuProcess_call, GpuProcess_new.
  destruct (GpuProcess_INSTANCES w !! (pid, dev)) as [r0|] eqn:Hk; simpl.
  - destruct (wf_registered w pid dev r0 W Hk) as [Hlt Huniq].
    apply wf_GpuProcess_init; assumption.
  - set (n := next_ref w).
    set (w1 := set_next_ref (S n) w).
    assert (Hfresh : forall p d, GpuProcess_INSTANCES w !! (p, d) <> Some n).
    { intros p d Hr. destruct (wf_registered w p d n W Hr) as [Hlt _].
      subst n. lia. }
    assert (W1 : wf w1).
    { destruct W as [Wh Wi Wg Wp]. split; simpl.
      - intros p h Hp. destruct (Wh p h Hp). split; [assumption | fold n; lia].
      - exact Wi.
      - exact Wg.
      - intros r o Ho. specialize (Wp r o Ho). fold n in Wp. lia. }
    assert (W2 : wf (GpuProcess_init I n pid dev mem ty w1)).
    { apply wf_GpuProcess_init; [exact W1 | simpl; lia |].
      intros p d Hr. exfalso. exact (Hfresh p d Hr). }
    destruct (GpuProcess_init_frame I n pid dev mem ty w1)
      as (Gg & _ & _ & _ & Gn & Gt & o & Go & Gpid & Gdev & _).
    pose proof (HostProcess_call_frame I (Some pid) w1) as F. simpl in F.
    destruct F as (_ & _ & _ & _ & _ & Fn & _).
    set (w2 := GpuProcess_init I n pid dev mem ty w1) in *.
    set (w3 := set_HOST_SNAPSHOTS _ _).
    assert (W3 : wf w3).
    { destruct W2 as [Wh Wi Wg Wp]. split; simpl.
      - exact Wh.
      - exact Wi.
      - intros p d r Hr.
        destruct (decide ((pid, dev) = (p, d))) as [E|Hne].
        + inversion E; subst p d. rewrite lookup_insert_eq in Hr.
          inversion Hr; subst r. exists o. rewrite Go, lookup_insert_eq. auto.
        + rewrite lookup_insert_ne in Hr by exact Hne. apply Wg, Hr.
      - exact Wp. }
    apply wf_GpuProcess_init; [exact W3 | |].
    + change (next_ref w3) with (next_ref w2). rewrite Gn.
      simpl in Fn. lia.
    + intros p d Hr. simpl in Hr.
      destruct (decide ((pid, dev) = (p, d))) as [E|Hne];
        [inversion E; auto|].
      rewrite lookup_insert_ne in Hr by exact Hne. rewrite Gg in Hr.
      exfalso. exact (Hfresh p d Hr).
Qed.

(** Every reachable world is well formed. *)
Lemma reachable_wf w : reachable I w -> wf w.
Proof.
  induction 1.
  - apply wf_initial_world.
  - eapply wf_shrinks; [eassumption | apply shrinks_same_tables; reflexivity].
  - apply wf_HostProcess_call, IHreachable.
  - apply wf_GpuProcess_call, IHreachable.
  - eapply wf_shrinks; [eassumption | apply assign_type_shrinks].
  - eapply wf_shrinks; [eassumption | apply set_gpu_memory_shrinks].
  - eapply wf_shrinks; [eassumption | apply shrinks_same_tables; reflexivity].
  - eapply wf_shrinks; [eassumption | apply create_time_shrinks].
  - eapply wf_shrinks; [eassumption | apply running_time_shrinks].
  - eapply wf_shrinks; [eassumption | apply username_shrinks].
  - eapply wf_shrinks; [eassumption | apply name_shrinks].
  - eapply wf_shrinks; [eassumption | apply cpu_percent_shrinks].
  - eapply wf_shrinks; [eassumption | apply memory_percent_shrinks].
  - eapply wf_shrinks; [eassumption | apply cmdline_shrinks].
  - eapply wf_shrinks; [eassumption | apply as_snapshot_shrinks].
Qed.
End ConstructionInvariant.

(** * Identity uniqueness *)

(** C1: while a host handle is registered for a pid, [HostProcess(pid)]
    returns that very object and changes nothing, so a second construction
    right after the first returns the object of the first; while a device
    handle is registered for a (pid, device) pair, [GpuProcess(pid, device,
    ...)], with whatever memory and type arguments, returns that very
    object and leaves the table as it is, so a second construction right
    after the first returns the object of the first. In every world the
    module can reach, each table maps an identity to one handle, that
    handle carries the identity it is registered under, and no object is
    registered under two identities. *)
Theorem identity_uniqueness I :
  (forall w pid h,
      HostProcess_INSTANCES w !! default (getpid I) pid = Some h ->
      HostProcess_call I pid w = (h, w))
  /\ (forall w pid,
        let h := fst (HostProcess_call I pid w) in
        let w1 := snd (HostProcess_call I pid w) in
        HostProcess_INSTANCES w1 !! default (getpid I) pid = Some h
        /\ HostProcess_call I pid w1 = (h, w1))
  /\ (forall w pid dev mem ty r,
        GpuProcess_INSTANCES w !! (pid, dev) = Some r ->
        fst (GpuProcess_call I pid dev mem ty w) = r
        /\ GpuProcess_INSTANCES (snd (GpuProcess_call I pid dev mem ty w))
           = GpuProcess_INSTANCES w)
  /\ (forall w pid dev mem ty mem' ty',
        let r := fst (GpuProcess_call I pid dev mem ty w) in
        let w1 := snd (GpuProcess_call I pid dev mem ty w) in
        GpuProcess_INSTANCES w1 !! (pid, dev) = Some r
        /\ fst (GpuProcess_call I pid dev mem' ty' w1) = r)
  /\ (forall w, reachable I w ->
        (forall p h, HostProcess_INSTANCES w !! p = Some h -> hp_pid h = p)
        /\ (forall p1 p2 h1 h2,
              HostProcess_INSTANCES w !! p1 = Some h1 ->
              HostProcess_INSTANCES w !! p2 = Some h2 ->
              hp_id h1 = hp_id h2 -> p1 = p2)
        /\ (forall p d r,
              GpuProcess_INSTANCES w !! (p, d) = Some r ->
              exists o, heap w !! r = Some o /\ _pid o = p /\ device o = d)
        /\ (forall k1 k2 r,
              GpuProcess_INSTANCES w !! k1 = Some r ->
              GpuProcess_INSTANCES w !! k2 = Some r -> k1 = k2)).
Proof.
  assert (Hhost : forall w pid h,
             HostProcess_INSTANCES w !! default (getpid I) pid = Some h ->
             HostProcess_call I pid w = (h, w)).
  { intros w pid h Hh. unfold HostProcess_call, HostProcess_new. rewrite Hh.
    reflexivity. }
  assert (Hgpu : forall w pid dev mem ty r,
             GpuProcess_INSTANCES w !! (pid, dev) = Some r ->
             fst (GpuProcess_call I pid dev mem ty w) = r
             /\ GpuProcess_INSTANCES (snd (GpuProcess_call I pid dev mem ty w))
                = GpuProcess_INSTANCES w).
  { intros w pid dev mem ty r Hr.
    destruct (GpuProcess_call_frame I pid dev mem ty w) as (_ & _ & _ & _ & _ & _ & H).
    rewrite Hr in H. destruct H as (-> & _ & ->). auto. }
  split; [exact Hhost|]. split; [|split; [exact Hgpu|split]].
  - intros w pid h w1.
    pose proof (HostProcess_call_frame I pid w) as F. simpl in F.
    destruct F as (_ & _ & _ & _ & _ & _ & Hp & _).
    split; [exact Hp | apply Hhost, Hp].
  - intros w pid dev mem ty mem' ty' r w1.
    destruct (GpuProcess_call_frame I pid dev mem ty w) as (Hr & _).
    split; [exact Hr | apply (Hgpu w1 pid dev mem' ty' r Hr)].
  - intros w Hreach. pose proof (reachable_wf I w Hreach) as W.
    split; [intros p h Hp; apply (wf_host w W p h Hp)|].
    split; [apply (wf_host_inj w W)|].
    split; [apply (wf_gpu w W)|].
    intros [p1 d1] [p2 d2] r H1 H2.
    destruct (wf_registered w p1 d1 r W H1) as [_ Huniq].
    destruct (Huniq p2 d2 H2) as [-> ->]. reflexivity.
Qed.

Lemma two_devices_reachable : reachable sample_imports two_devices.
Proof. unfold two_devices. do 2 apply reach_GpuProcess. apply reach_initial. Qed.

Lemma identity_uniqueness_witness :
  HostProcess_call sample_imports (Some 7) two_devices
  = (mkHostProcess 1%nat 7, two_devices)
  /\ fst (GpuProcess_call sample_imports 7 1%nat None (Some "C") two_devices) = 2%nat
  /\ (exists o, heap two_devices !! 2%nat = Some o /\ _pid o = 7 /\ device o = 1%nat).
Proof.
  destruct (identity_uniqueness sample_imports) as (H1 & _ & H3 & _ & H5).
  split; [apply H1; vm_compute; reflexivity|].
  split; [apply H3; vm_compute; reflexivity|].
  destruct (H5 two_devices two_devices_reachable) as (_ & _ & Hg & _).
  apply Hg. vm_compute. reflexivity.
Defined.

(** * Escaping, character by character *)

Lemma string_app_cons (x : ascii) (a b : string) :
  String x a +:+ b = String x (a +:+ b).
Proof. reflexivity. Qed.

Lemma string_app_assoc (a b c : string) : (a +:+ b) +:+ c = a +:+ (b +:+ c).
Proof.
  induction a as [|x a IH]; [reflexivity|].
  rewrite !string_app_cons, IH. reflexivity.
Qed.

Lemma string_app_nil_r (a : string) : a +:+ "" = a.
Proof.
  induction a as [|x a IH]; [reflexivity|].
  rewrite string_app_cons, IH. reflexivity.
Qed.

Lemma replace_app c by_ a b :
  replace c by_ (a +:+ b) = replace c by_ a +:+ replace c by_ b.
Proof.
  induction a as [|x a IH]; [reflexivity|].
  rewrite string_app_cons. cbn [replace].
  destruct (Ascii.eqb x c); rewrite IH.
  - rewrite string_app_assoc. reflexivity.
  - reflexivity.
Qed.

Lemma replace_absent c by_ s : contains c s = false -> replace c by_ s = s.
Proof.
  induction s as [|x s IH]; simpl; [reflexivity|].
  destruct (Ascii.eqb x c); [discriminate|]. intros H. rewrite (IH H). reflexivity.
Qed.

Lemma string_app_nil_l (a : string) : "" +:+ a = a.
Proof. reflexivity. Qed.

Lemma replace_cons_eq c by_ r :
  replace c by_ (String c r) = by_ +:+ replace c by_ r.
Proof. cbn [replace]. rewrite Ascii.eqb_refl. reflexivity. Qed.

Lemma replace_cons_ne c by_ a r :
  a <> c -> replace c by_ (String a r) = String a (replace c by_ r).
Proof.
  intros H. cbn [replace]. rewrite (proj2 (Ascii.eqb_neq a c) H). reflexivity.
Qed.

Section EscapeEach.
Variables e c1 c2 : ascii.
Hypothesis He1 : e <> c1.
Hypothesis He2 : e <> c2.
Hypothesis H12 : c1 <> c2.

Lemma escape_each_cons a s :
  escape_each e c1 c2 (String a s)
  = if Ascii.eqb a e || Ascii.eqb a c1 || Ascii.eqb a c2
    then String e (String a (escape_each e c1 c2 s))
    else String a (escape_each e c1 c2 s).
Proof.
  cbn [escape_each]. unfold escape_char, str1.
  destruct (Ascii.eqb a e || Ascii.eqb a c1 || Ascii.eqb a c2); reflexivity.
Qed.

(** The three replacements in the order of the source, escape character
    first, are one pass over the string. *)
Lemma three_replacements_one_pass s :
  replace c2 (String e (str1 c2))
    (replace c1 (String e (str1 c1))
       (replace e (String e (str1 e)) s))
  = escape_each e c1 c2 s.
Proof.
  unfold str1.
  induction s as [|a s IH]; [reflexivity|].
  rewrite escape_each_cons.
  destruct (Ascii.eqb_spec a e) as [->|Hae]; cbn [orb].
  - rewrite replace_cons_eq, !string_app_cons, string_app_nil_l.
    rewrite !(replace_cons_ne c1) by exact He1.
    rewrite !(replace_cons_ne c2) by exact He2.
    rewrite IH. reflexivity.
  - rewrite (replace_cons_ne e) by exact Hae.
    destruct (Ascii.eqb_spec a c1) as [->|Ha1]; cbn [orb].
    + rewrite replace_cons_eq, !string_app_cons, string_app_nil_l.
      rewrite (replace_cons_ne c2 _ e) by exact He2.
      rewrite (replace_cons_ne c2 _ c1) by exact H12.
      rewrite IH. reflexivity.
    + rewrite (replace_cons_ne c1) by exact Ha1.
      destruct (Ascii.eqb_spec a c2) as [->|Ha2].
      * rewrite replace_cons_eq, !string_app_cons, string_app_nil_l, IH.
        reflexivity.
      * rewrite (replace_cons_ne c2) by exact Ha2. rewrite IH. reflexivity.
Qed.

Lemma unescape_escape_each s : unescape e (escape_each e c1 c2 s) = s.
Proof.
  induction s as [|a s IH]; [reflexivity|].
  rewrite escape_each_cons.
  destruct (Ascii.eqb_spec a e) as [->|Hae]; cbn [orb].
  - cbn [unescape]. rewrite Ascii.eqb_refl, IH. reflexivity.
  - destruct (Ascii.eqb a c1 || Ascii.eqb a c2); cbn [unescape].
    + rewrite Ascii.eqb_refl, IH. reflexivity.
    + rewrite (proj2 (Ascii.eqb_neq a e) Hae), IH. reflexivity.
Qed.

Lemma escaped_escape_each s : escaped e c1 c2 (escape_each e c1 c2 s) = true.
Proof.
  induction s as [|a s IH]; [reflexivity|].
  rewrite escape_each_cons.
  destruct (Ascii.eqb_spec a e) as [->|Hae]; cbn [orb].
  - cbn [escaped]. rewrite Ascii.eqb_refl. exact IH.
  - destruct (Ascii.eqb a c1 || Ascii.eqb a c2) eqn:E; cbn [escaped].
    + rewrite Ascii.eqb_refl. exact IH.
    + rewrite (proj2 (Ascii.eqb_neq a e) Hae), E. exact IH.
Qed.

(** Text without any of the three characters is escaped text, and
    unescaping leaves it alone. *)
Lemma escaped_plain s :
  contains e s = false -> contains c1 s = false -> contains c2 s = false ->
  escaped e c1 c2 s = true /\ unescape e s = s.
Proof.
  induction s as [|a s IH]; [split; reflexivity|].
  cbn. destruct (Ascii.eqb a e); [discriminate|].
  destruct (Ascii.eqb a c1); [discriminate|].
  destruct (Ascii.eqb a c2); [discriminate|].
  intros H0 H1 H2. destruct (IH H0 H1 H2) as [-> ->]. split; reflexivity.
Qed.
End EscapeEach.

(** * Splitting, joining and stripping *)

Section SplitJoin.
Variable c : ascii.

Lemma split_cons_eq r : split c (String c r) = EmptyString :: split c r.
Proof. cbn [split]. rewrite Ascii.eqb_refl. reflexivity. Qed.

Lemma split_nonempty s : split c s <> [].
Proof.
  destruct s as [|a r]; [discriminate|]. cbn [split].
  destruct (Ascii.eqb a c); [discriminate|]. destruct (split c r); discriminate.
Qed.

Lemma split_cons_ne a r :
  a <> c ->
  exists t ts, split c r = t :: ts /\ split c (String a r) = String a t :: ts.
Proof.
  intros H. cbn [split]. rewrite (proj2 (Ascii.eqb_neq a c) H).
  destruct (split c r) as [|t ts] eqn:E; [destruct (split_nonempty r E)|].
  eauto.
Qed.

(** No field of a split holds the separator. *)
Lemma split_fields s : Forall (fun t => contains c t = false) (split c s).
Proof.
  induction s as [|a r IH]; [repeat constructor|].
  destruct (Ascii.eqb_spec a c) as [->|Hne].
  - rewrite split_cons_eq. constructor; [reflexivity | exact IH].
  - destruct (split_cons_ne a r Hne) as (t & ts & E & ->). rewrite E in IH.
    inversion IH; subst. constructor; [|assumption].
    cbn [contains]. rewrite (proj2 (Ascii.eqb_neq a c) Hne). assumption.
Qed.

(** Joining the fields of a split gives the string back. *)
Lemma join_split s : join (str1 c) (split c s) = s.
Proof.
  induction s as [|a r IH]; [reflexivity|].
  destruct (Ascii.eqb_spec a c) as [->|Hne].
  - rewrite split_cons_eq.
    destruct (split c r) as [|t ts] eqn:E; [destruct (split_nonempty r E)|].
    cbn [join]. cbn [join] in IH. rewrite IH. reflexivity.
  - destruct (split_cons_ne a r Hne) as (t & ts & E & ->). rewrite E in IH.
    destruct ts as [|t' ts]; cbn [join] in *.
    + rewrite IH. reflexivity.
    + rewrite string_app_cons, IH. reflexivity.
Qed.

Lemma split_plain s : contains c s = false -> split c s = [s].
Proof.
  induction s as [|a r IH]; [reflexivity|]. cbn [contains split].
  destruct (Ascii.eqb a c); [discriminate|]. intros H. rewrite (IH H). reflexivity.
Qed.

Lemma split_app_sep t s :
  contains c t = false -> split c (t +:+ String c s) = t :: split c s.
Proof.
  induction t as [|a r IH]; intros H.
  - rewrite string_app_nil_l. apply split_cons_eq.
  - cbn [contains] in H. destruct (Ascii.eqb_spec a c) as [|Hne]; [discriminate|].
    rewrite string_app_cons. cbn [split].
    rewrite (proj2 (Ascii.eqb_neq a c) Hne), (IH H). reflexivity.
Qed.

(** Splitting the join of separator-free fields gives the fields back. *)
Lemma split_join l :
  l <> [] -> Forall (fun t => contains c t = false) l ->
  split c (join (str1 c) l) = l.
Proof.
  induction l as [|t l IH]; [congruence|]. intros _ H. inversion H; subst.
  destruct l as [|t' l]; cbn [join].
  - apply split_plain. assumption.
  - unfold str1 at 1. rewrite string_app_cons, string_app_nil_l.
    rewrite split_app_sep by assumption. f_equal. apply IH; [discriminate | assumption].
Qed.

Lemma lstrip_starts s : starts_with c (lstrip c s) = false.
Proof.
  induction s as [|a r IH]; [reflexivity|]. cbn [lstrip].
  destruct (Ascii.eqb a c) eqn:E; [exact IH | cbn; exact E].
Qed.

Lemma rstrip_cons a r :
  rstrip c (String a r)
  = match rstrip c r with
    | EmptyString => if Ascii.eqb a c then EmptyString else str1 a
    | r' => String a r'
    end.
Proof. reflexivity. Qed.

Lemma rstrip_ends s : ends_with c (rstrip c s) = false.
Proof.
  induction s as [|a r IH]; [reflexivity|]. rewrite rstrip_cons.
  destruct (rstrip c r) as [|b r'] eqn:E.
  - destruct (Ascii.eqb a c) eqn:Ea; [reflexivity | cbn; exact Ea].
  - exact IH.
Qed.

Lemma rstrip_starts s : starts_with c s = false -> starts_with c (rstrip c s) = false.
Proof.
  destruct s as [|a r]; [reflexivity|]. cbn [starts_with]. intros H.
  rewrite rstrip_cons. destruct (rstrip c r); [rewrite H|]; cbn; auto.
Qed.

Lemma lstrip_noop s : starts_with c s = false -> lstrip c s = s.
Proof. destruct s as [|a r]; [reflexivity|]. cbn. intros ->. reflexivity. Qed.

Lemma rstrip_noop s : ends_with c s = false -> rstrip c s = s.
Proof.
  induction s as [|a r IH]; [reflexivity|]. rewrite rstrip_cons.
  destruct r as [|b r'].
  - cbn. intros ->. reflexivity.
  - intros H. change (ends_with c (String b r') = false) in H.
    rewrite (IH H). reflexivity.
Qed.

Lemma strip_clean s :
  starts_with c (strip c s) = false /\ ends_with c (strip c s) = false.
Proof.
  unfold strip. split; [apply rstrip_starts, lstrip_starts | apply rstrip_ends].
Qed.

Lemma strip_noop s :
  starts_with c s = false -> ends_with c s = false -> strip c s = s.
Proof. intros H1 H2. unfold strip. rewrite (lstrip_noop s H1). apply rstrip_noop, H2. Qed.
End SplitJoin.

Section SplitEnds.
Variable c : ascii.

Lemma starts_with_contains s : starts_with c s = true -> contains c s = true.
Proof. destruct s as [|a r]; [discriminate|]. cbn. intros ->. reflexivity. Qed.

Lemma ends_with_contains s : ends_with c s = true -> contains c s = true.
Proof.
  induction s as [|a r IH]; [discriminate|]. destruct r as [|b r'].
  - cbn. intros ->. reflexivity.
  - intros H. change (ends_with c (String b r') = true) in H.
    change (contains c (String a (String b r')))
      with (if Ascii.eqb a c then true else contains c (String b r')).
    rewrite (IH H). destruct (Ascii.eqb a c); reflexivity.
Qed.

Lemma ends_with_cons a r : r <> "" -> ends_with c (String a r) = ends_with c r.
Proof. destruct r; [congruence | reflexivity]. Qed.

Lemma ends_with_app x y : y <> "" -> ends_with c (x +:+ y) = ends_with c y.
Proof.
  intros Hy. induction x as [|a r IH]; [reflexivity|].
  rewrite string_app_cons, ends_with_cons; [exact IH|].
  destruct r; [exact Hy | discriminate].
Qed.

Lemma split_hd_nonempty s :
  s <> "" -> starts_with c s = false -> hd "" (split c s) <> "".
Proof.
  destruct s as [|a r]; [congruence|]. intros _ H. cbn [starts_with] in H.
  cbn [split]. rewrite H. destruct (split c r); discriminate.
Qed.

Lemma split_last_nonempty s :
  s <> "" -> ends_with c s = false -> List.last (split c s) "" <> "".
Proof.
  induction s as [|a r IH]; [congruence|]. intros _ H.
  destruct (Ascii.eqb_spec a c) as [->|Hne].
  - rewrite split_cons_eq.
    destruct r as [|b r']; [cbn in H; rewrite Ascii.eqb_refl in H; discriminate|].
    rewrite ends_with_cons in H by discriminate.
    destruct (split c (String b r')) as [|t ts] eqn:E;
      [destruct (split_nonempty c _ E)|].
    change (List.last (t :: ts) "" <> ""). apply IH; [discriminate | exact H].
  - destruct (split_cons_ne c a r Hne) as (t & ts & E & ->).
    destruct ts as [|t' ts]; [discriminate|].
    change (List.last (t' :: ts) "" <> "").
    assert (Hr : r <> "") by (intros ->; discriminate E).
    rewrite ends_with_cons in H by exact Hr.
    specialize (IH Hr H). rewrite E in IH. exact IH.
Qed.

Lemma join_cons2 sep t t' l :
  join sep (t :: t' :: l) = t +:+ sep +:+ join sep (t' :: l).
Proof. reflexivity. Qed.

Lemma join_nonempty_last l :
  List.last l "" <> "" -> join (str1 c) l <> "".
Proof.
  destruct l as [|t l]; [cbn; congruence|]. destruct l as [|t' l].
  - cbn. auto.
  - intros _. rewrite join_cons2. destruct t; discriminate.
Qed.

Lemma join_ends l :
  Forall (fun t => contains c t = false) l ->
  List.last l "" <> "" ->
  ends_with c (join (str1 c) l) = false.
Proof.
  induction l as [|u l IH]; [reflexivity|]. intros Hf Hl.
  inversion Hf; subst. destruct l as [|u' l].
  - cbn [join]. cbn in Hl. destruct (ends_with c u) eqn:E; [|reflexivity].
    apply ends_with_contains in E. congruence.
  - rewrite join_cons2. change (List.last (u' :: l) "" <> "") in Hl.
    rewrite <- string_app_assoc.
    rewrite ends_with_app by (apply join_nonempty_last; exact Hl).
    apply IH; assumption.
Qed.

(** The join of separator-free fields starts and ends with the separator
    only when an outer field is empty. *)
Lemma join_outer l :
  Forall (fun t => contains c t = false) l ->
  hd "" l <> "" -> List.last l "" <> "" ->
  starts_with c (join (str1 c) l) = false /\ ends_with c (join (str1 c) l) = false.
Proof.
  intros Hf Hh Hl. split; [|apply join_ends; assumption].
  destruct l as [|t l]; [reflexivity|]. inversion Hf; subst. cbn [hd] in Hh.
  assert (Ht : starts_with c t = false).
  { destruct (starts_with c t) eqn:E; [|reflexivity].
    apply starts_with_contains in E. congruence. }
  destruct t as [|a t]; [congruence|].
  destruct l; [exact Ht | rewrite join_cons2, string_app_cons; exact Ht].
Qed.

Lemma join_snoc_empty l :
  l <> [] -> join (str1 c) (l ++ [""]) = join (str1 c) l +:+ str1 c.
Proof.
  induction l as [|t l IH]; [congruence|]. intros _. destruct l as [|t' l].
  - cbn [app]. rewrite join_cons2. cbn [join]. rewrite string_app_nil_r. reflexivity.
  - change ((t :: t' :: l) ++ [""])%list with (t :: t' :: (l ++ [""]))%list.
    rewrite !join_cons2.
    change (t' :: l ++ [""])%list with ((t' :: l) ++ [""])%list.
    rewrite IH by discriminate.
    rewrite !string_app_assoc. reflexivity.
Qed.

Lemma rstrip_app_sep x : rstrip c (x +:+ str1 c) = rstrip c x.
Proof.
  induction x as [|a r IH].
  - rewrite string_app_nil_l. unfold str1. cbn [rstrip].
    rewrite Ascii.eqb_refl. reflexivity.
  - rewrite string_app_cons, !rstrip_cons, IH. reflexivity.
Qed.

Lemma strip_app_sep s : strip c (s +:+ str1 c) = strip c s.
Proof.
  unfold strip. induction s as [|a r IH].
  - rewrite string_app_nil_l. unfold str1. cbn [lstrip].
    rewrite Ascii.eqb_refl. reflexivity.
  - rewrite string_app_cons. cbn [lstrip]. destruct (Ascii.eqb a c); [exact IH|].
    rewrite <- string_app_cons. apply rstrip_app_sep.
Qed.

Lemma strip_cons_sep s : strip c (String c s) = strip c s.
Proof. unfold strip. cbn [lstrip]. rewrite Ascii.eqb_refl. reflexivity. Qed.
End SplitEnds.

(** * Quoting: what the escaping guarantees *)

Lemma escape_as_escape_each s :
  escape s = escape_each c_backslash c_dquote c_dollar s.
Proof. apply three_replacements_one_pass; discriminate. Qed.

Lemma escape_windows_as_escape_each s :
  escape_windows s = escape_each c_caret c_dquote c_percent s.
Proof. apply three_replacements_one_pass; discriminate. Qed.

(** X1: the three chained replacements of either dialect are one pass
    over the token: every escape character, double quote and dollar (or
    percent) gets exactly one escape character in front of it and every
    other character is copied; the escape characters that the second and
    third replacement insert are not escaped again. *)
Theorem escape_single_pass (s : string) :
  escape s = escape_each c_backslash c_dquote c_dollar s
  /\ escape_windows s = escape_each c_caret c_dquote c_percent s.
Proof. split; [apply escape_as_escape_each | apply escape_windows_as_escape_each]. Qed.

Lemma unescape_escape s : unescape c_backslash (escape s) = s.
Proof. rewrite escape_as_escape_each. apply unescape_escape_each. Qed.

Lemma escaped_escape s : escaped c_backslash c_dquote c_dollar (escape s) = true.
Proof. rewrite escape_as_escape_each. apply escaped_escape_each. Qed.

Lemma unescape_escape_windows s : unescape c_caret (escape_windows s) = s.
Proof. rewrite escape_windows_as_escape_each. apply unescape_escape_each. Qed.

Lemma escaped_escape_windows s :
  escaped c_caret c_dquote c_percent (escape_windows s) = true.
Proof. rewrite escape_windows_as_escape_each. apply escaped_escape_each. Qed.

(** X2: escaping loses nothing and leaves nothing bare. Dropping each
    escape character of the escaped text and keeping the character after
    it gives the token back, so two tokens never have the same escaped
    text; and in the escaped text no double quote, dollar (or percent)
    stands without an escape character before it and no escape character
    dangles at the end. *)
Theorem escape_reads_back :
  (forall s, unescape c_backslash (escape s) = s)
  /\ (forall s, escaped c_backslash c_dquote c_dollar (escape s) = true)
  /\ (forall s1 s2, escape s1 = escape s2 -> s1 = s2)
  /\ (forall s, unescape c_caret (escape_windows s) = s)
  /\ (forall s, escaped c_caret c_dquote c_percent (escape_windows s) = true)
  /\ (forall s1 s2, escape_windows s1 = escape_windows s2 -> s1 = s2).
Proof.
  split; [exact unescape_escape|]. split; [exact escaped_escape|]. split.
  { intros s1 s2 H. rewrite <- (unescape_escape s1), <- (unescape_escape s2), H.
    reflexivity. }
  split; [exact unescape_escape_windows|]. split; [exact escaped_escape_windows|].
  intros s1 s2 H.
  rewrite <- (unescape_escape_windows s1), <- (unescape_escape_windows s2), H.
  reflexivity.
Qed.

Lemma unescape_plain e s : contains e s = false -> unescape e s = s.
Proof.
  induction s as [|a r IH]; [reflexivity|]. cbn [contains unescape].
  destruct (Ascii.eqb a e); [discriminate|]. intros H. rewrite (IH H). reflexivity.
Qed.

Lemma escaped_when_plain e c1 c2 s :
  contains e s = false -> contains c1 s = false -> contains c2 s = false ->
  escaped e c1 c2 s = true.
Proof.
  induction s as [|a r IH]; [reflexivity|]. cbn [contains escaped].
  destruct (Ascii.eqb a e); [discriminate|].
  destruct (Ascii.eqb a c1); [discriminate|].
  destruct (Ascii.eqb a c2); [discriminate|]. exact IH.
Qed.

Lemma add_quotes_cases (s : string) :
  (add_quotes s = s /\ s <> ""
   /\ contains c_space s = false /\ contains c_dollar s = false
   /\ contains c_backslash s = false)
  \/ (add_quotes s = wrap c_squote s /\ contains c_squote s = false)
  \/ (exists body,
        add_quotes s = wrap c_dquote body
        /\ escaped c_backslash c_dquote c_dollar body = true
        /\ unescape c_backslash body = s).
Proof.
  pose proof unescape_escape as P. pose proof escaped_escape as Q.
  unfold add_quotes. destruct (String.eqb s "") eqn:E.
  - apply String.eqb_eq in E. subst s. right. right. exists "". repeat split.
  - assert (s <> "") by (intros ->; discriminate E).
    destruct (contains c_squote s) eqn:Hsq; cbn [negb];
      destruct (contains c_dollar s) eqn:Hd, (contains c_backslash s) eqn:Hb;
      cbn [negb andb];
      try (right; right; exists (escape s); repeat split; [apply Q | apply P]);
      try (right; left; split; reflexivity);
      destruct (contains c_space s) eqn:Hs; cbn [negb];
      try (left; repeat split; assumption);
      destruct (contains c_dquote s) eqn:Hq; cbn [negb];
      try (right; right; exists (escape s); repeat split; [apply Q | apply P]);
      try (right; left; split; reflexivity);
      right; right; exists s;
      (split; [reflexivity|]);
      (split; [apply escaped_when_plain; assumption | apply unescape_plain; assumption]).
Qed.

(** X3: the shape of what the POSIX [add_quotes] returns. Either the
    token itself, when it is non-empty and has no space, dollar or
    backslash; or the token between single quotes, when it holds no single
    quote; or a body between double quotes in which nothing special stands
    bare and from which unescaping gives the token back. *)
Theorem add_quotes_shape (s : string) :
  (add_quotes s = s /\ s <> ""
   /\ contains c_space s = false /\ contains c_dollar s = false
   /\ contains c_backslash s = false)
  \/ (add_quotes s = wrap c_squote s /\ contains c_squote s = false)
  \/ (exists body,
        add_quotes s = wrap c_dquote body
        /\ escaped c_backslash c_dquote c_dollar body = true
        /\ unescape c_backslash body = s).
Proof. exact (add_quotes_cases s). Qed.

Lemma add_quotes_windows_cases (s : string) :
  (add_quotes_windows s = s /\ s <> ""
   /\ contains c_space s = false /\ contains c_backslash s = false
   /\ contains c_percent s = false /\ contains c_caret s = false)
  \/ (exists body,
        add_quotes_windows s = wrap c_dquote body
        /\ escaped c_caret c_dquote c_percent body = true
        /\ unescape c_caret body = s).
Proof.
  pose proof unescape_escape_windows as P. pose proof escaped_escape_windows as Q.
  unfold add_quotes_windows. destruct (String.eqb s "") eqn:E.
  - apply String.eqb_eq in E. subst s. right. exists "". repeat split.
  - assert (s <> "") by (intros ->; discriminate E).
    destruct (contains c_percent s) eqn:Hp, (contains c_caret s) eqn:Hc;
      cbn [negb andb];
      try (right; exists (escape_windows s); repeat split; [apply Q | apply P]).
    destruct (contains c_space s) eqn:Hs, (contains c_backslash s) eqn:Hb;
      cbn [negb andb];
      try (left; repeat split; assumption);
      destruct (contains c_dquote s) eqn:Hq; cbn [negb];
      try (right; exists (escape_windows s); repeat split; [apply Q | apply P]);
      right; exists s;
      (split; [reflexivity|]);
      (split; [apply escaped_when_plain; assumption | apply unescape_plain; assumption]).
Qed.

(** X4: the shape of what the Windows [add_quotes] returns. Either the
    token itself, when it is non-empty and has no space, backslash,
    percent or caret; or a body between double quotes in which no double
    quote or percent stands without a caret before it and from which
    dropping the carets gives the token back. *)
Theorem add_quotes_windows_shape (s : string) :
  (add_quotes_windows s = s /\ s <> ""
   /\ contains c_space s = false /\ contains c_backslash s = false
   /\ contains c_percent s = false /\ contains c_caret s = false)
  \/ (exists body,
        add_quotes_windows s = wrap c_dquote body
        /\ escaped c_caret c_dquote c_percent body = true
        /\ unescape c_caret body = s).
Proof. exact (add_quotes_windows_cases s). Qed.

Lemma drop_last_app_char s q : drop_last (s +:+ str1 q) = s.
Proof.
  induction s as [|a r IH]; [reflexivity|].
  rewrite string_app_cons.
  destruct r as [|b r'].
  - reflexivity.
  - rewrite string_app_cons in *. cbn [drop_last]. cbn [drop_last] in IH.
    rewrite IH. reflexivity.
Qed.

Lemma unquote_wrap_squote e s : unquote e (wrap c_squote s) = s.
Proof. unfold wrap, unquote. cbn. apply drop_last_app_char. Qed.

Lemma unquote_wrap_dquote e body :
  unquote e (wrap c_dquote body) = unescape e body.
Proof. unfold wrap, unquote. cbn. rewrite drop_last_app_char. reflexivity. Qed.

Lemma unquote_bare e s :
  starts_with c_squote s = false -> starts_with c_dquote s = false ->
  unquote e s = s.
Proof.
  destruct s as [|a r]; [reflexivity|]. cbn. intros -> ->. reflexivity.
Qed.

(** X5: a quoted token reads back. For a token that does not itself
    begin with a quote character, taking the outer quotes off what
    [add_quotes] returns and, inside double quotes, dropping one escape
    character before each escaped character gives the token back, on the
    POSIX dialect (escape character backslash) and on the Windows one
    (escape character caret). *)
Theorem add_quotes_reads_back (s : string) :
  starts_with c_squote s = false ->
  starts_with c_dquote s = false ->
  unquote c_backslash (add_quotes s) = s
  /\ unquote c_caret (add_quotes_windows s) = s.
Proof.
  intros Hs Hd. split.
  - destruct (add_quotes_cases s) as [(-> & _) | [(-> & _) | (body & -> & _ & Hb)]].
    + apply unquote_bare; assumption.
    + apply unquote_wrap_squote.
    + rewrite unquote_wrap_dquote. exact Hb.
  - destruct (add_quotes_windows_cases s) as [(-> & _) | (body & -> & _ & Hb)].
    + apply unquote_bare; assumption.
    + rewrite unquote_wrap_dquote. exact Hb.
Qed.

Lemma add_quotes_reads_back_witness :
  unquote c_backslash (add_quotes "it's $5 \ or less") = "it's $5 \ or less"
  /\ unquote c_caret (add_quotes_windows "100% ^ sure") = "100% ^ sure".
Proof.
  split.
  - apply (add_quotes_reads_back "it's $5 \ or less"); reflexivity.
  - apply (add_quotes_reads_back "100% ^ sure"); reflexivity.
Defined.

(** X6: on every dialect the result of [add_quotes] is never empty, and a
    token that is empty or holds a space is always returned between a pair
    of quote characters, so that inside the joined command a space outside
    quotes is a separator. *)
Theorem add_quotes_encloses_spaces (platform : Platform) (s : string) :
  add_quotes_on platform s <> ""
  /\ (s = "" \/ contains c_space s = true ->
      exists q body,
        (q = c_dquote \/ q = c_squote)
        /\ add_quotes_on platform s = wrap q body).
Proof.
  destruct platform; cbn [add_quotes_on].
  - destruct (add_quotes_cases s)
      as [(E & Hne & Hsp & _) | [(E & _) | (body & E & _)]]; rewrite E.
    + split; [exact Hne|]. intros [->|H]; congruence.
    + split; [discriminate|]. intros _. exists c_squote, s. auto.
    + split; [discriminate|]. intros _. exists c_dquote, body. auto.
  - destruct (add_quotes_windows_cases s)
      as [(E & Hne & Hsp & _) | (body & E & _)]; rewrite E.
    + split; [exact Hne|]. intros [->|H]; congruence.
    + split; [discriminate|]. intros _. exists c_dquote, body. auto.
  - unfold add_quotes_fallback. split; [discriminate|].
    intros _. exists c_dquote, s. auto.
Qed.

(** * The user name on Windows *)

Lemma join_last c l :
  l <> [] ->
  exists prefix,
    join (str1 c) l = prefix +:+ List.last l ""
    /\ (prefix = "" \/ ends_with c prefix = true).
Proof.
  induction l as [|t l IH]; [congruence|]. intros _. destruct l as [|t' l].
  - exists "". split; [reflexivity | left; reflexivity].
  - destruct IH as (prefix & E & Hp); [discriminate|].
    exists (t +:+ str1 c +:+ prefix). rewrite join_cons2, E.
    change (List.last (t :: t' :: l) "") with (List.last (t' :: l) "").
    rewrite !string_app_assoc. split; [reflexivity|]. right.
    rewrite <- string_app_assoc.
    destruct prefix as [|a r].
    + rewrite string_app_nil_r, ends_with_app by discriminate. cbn.
      apply Ascii.eqb_refl.
    + destruct Hp as [Hp|Hp]; [discriminate Hp|].
      rewrite ends_with_app by discriminate. exact Hp.
Qed.

Lemma last_Forall {A} (P : A -> Prop) (l : list A) d :
  l <> [] -> Forall P l -> P (List.last l d).
Proof.
  induction l as [|x l IH]; [congruence|]. intros _ H. inversion H; subst.
  destruct l as [|y l]; [assumption|]. apply IH; [discriminate | assumption].
Qed.

(** X7: under Windows the user name is what follows the last backslash
    of the reported name: it holds no backslash, the reported name is some
    prefix followed by it, where the prefix is empty or ends with a
    backslash, a reported name without backslash is returned as it is, and
    taking the user name of a user name changes nothing. *)
Theorem username_windows_is_last_component (reported : string) :
  contains c_backslash (username_windows reported) = false
  /\ (exists prefix,
        reported = prefix +:+ username_windows reported
        /\ (prefix = "" \/ ends_with c_backslash prefix = true))
  /\ (contains c_backslash reported = false -> username_windows reported = reported)
  /\ username_windows (username_windows reported) = username_windows reported.
Proof.
  assert (Hno : contains c_backslash (username_windows reported) = false).
  { unfold username_windows.
    apply (last_Forall (fun t => contains c_backslash t = false));
      [apply split_nonempty | apply split_fields]. }
  assert (Hplain : forall s, contains c_backslash s = false -> username_windows s = s).
  { intros s H. unfold username_windows. rewrite (split_plain _ _ H). reflexivity. }
  split; [exact Hno|]. split; [|split; [apply Hplain | apply Hplain, Hno]].
  destruct (join_last c_backslash (split c_backslash reported))
    as (prefix & E & Hp); [apply split_nonempty|].
  rewrite join_split in E. exists prefix. split; assumption.
Qed.

(** * The normalised argument vector *)

Lemma normalize_cmdline_long l :
  (1 < length l)%nat ->
  normalize_cmdline l = split c_nul (strip c_nul (join (str1 c_nul) l)).
Proof.
  intros H. unfold normalize_cmdline.
  rewrite (proj2 (Nat.ltb_lt _ _) H). reflexivity.
Qed.

Lemma normalize_cmdline_short l :
  (length l <= 1)%nat -> normalize_cmdline l = l.
Proof.
  intros H. unfold normalize_cmdline.
  rewrite (proj2 (Nat.ltb_ge _ _) H). reflexivity.
Qed.

Lemma normalize_cmdline_fields (cmdline : list string) :
  (1 < length cmdline)%nat ->
  normalize_cmdline cmdline <> []
  /\ Forall (fun t => contains c_nul t = false) (normalize_cmdline cmdline)
  /\ (normalize_cmdline cmdline = [""]
      \/ (hd "" (normalize_cmdline cmdline) <> ""
          /\ List.last (normalize_cmdline cmdline) "" <> "")).
Proof.
  intros H. rewrite (normalize_cmdline_long _ H).
  set (s := strip c_nul (join (str1 c_nul) cmdline)).
  split; [apply split_nonempty|]. split; [apply split_fields|].
  destruct (strip_clean c_nul (join (str1 c_nul) cmdline)) as [Hs He]. fold s in Hs, He.
  destruct s as [|a r] eqn:Es; [left; reflexivity|]. right. split.
  - apply split_hd_nonempty; [discriminate | exact Hs].
  - apply split_last_nonempty; [discriminate | exact He].
Qed.

(** X8: what the normalisation of a vector of more than one token
    returns is never empty, none of its tokens holds a null character, and
    either it is the single empty token or its first and its last token
    are both non-empty. *)
Theorem normalize_cmdline_clean (cmdline : list string) :
  (1 < length cmdline)%nat ->
  normalize_cmdline cmdline <> []
  /\ Forall (fun t => contains c_nul t = false) (normalize_cmdline cmdline)
  /\ (normalize_cmdline cmdline = [""]
      \/ (hd "" (normalize_cmdline cmdline) <> ""
          /\ List.last (normalize_cmdline cmdline) "" <> "")).
Proof. exact (normalize_cmdline_fields cmdline). Qed.

Lemma normalize_cmdline_clean_witness :
  normalize_cmdline [""; "a"; ""; "b"; ""] = ["a"; ""; "b"]
  /\ Forall (fun t => contains c_nul t = false)
       (normalize_cmdline [""; "a"; ""; "b"; ""]).
Proof.
  split; [reflexivity|].
  apply (normalize_cmdline_clean [""; "a"; ""; "b"; ""]). cbn. lia.
Defined.

Lemma normalize_cmdline_fixed (cmdline : list string) :
  Forall (fun t => contains c_nul t = false) cmdline ->
  hd "" cmdline <> "" ->
  List.last cmdline "" <> "" ->
  normalize_cmdline cmdline = cmdline.
Proof.
  intros Hf Hh Hl.
  destruct (Nat.ltb_spec 1 (length cmdline)) as [Hlen|Hlen];
    [|apply normalize_cmdline_short; lia].
  rewrite (normalize_cmdline_long _ Hlen).
  destruct (join_outer c_nul cmdline Hf Hh Hl) as [Hs He].
  rewrite (strip_noop _ _ Hs He).
  apply split_join; [|exact Hf]. destruct cmdline; [cbn in Hlen; lia | discriminate].
Qed.

(** X9: a vector of more than one token whose tokens hold no null
    character and whose first and last token are non-empty is returned
    unchanged: joining with nulls and splitting again is the identity on
    it, empty tokens in the middle included. *)
Theorem normalize_cmdline_keeps_clean_vector (cmdline : list string) :
  Forall (fun t => contains c_nul t = false) cmdline ->
  hd "" cmdline <> "" ->
  List.last cmdline "" <> "" ->
  normalize_cmdline cmdline = cmdline.
Proof. exact (normalize_cmdline_fixed cmdline). Qed.

Lemma normalize_cmdline_keeps_clean_vector_witness :
  normalize_cmdline ["python"; ""; "train.py"] = ["python"; ""; "train.py"].
Proof.
  apply normalize_cmdline_keeps_clean_vector;
    [repeat constructor | discriminate | discriminate].
Defined.

Lemma normalize_cmdline_twice (cmdline : list string) :
  normalize_cmdline (normalize_cmdline cmdline) = normalize_cmdline cmdline.
Proof.
  destruct (Nat.ltb_spec 1 (length cmdline)) as [Hlen|Hlen].
  - destruct (normalize_cmdline_fields cmdline Hlen) as (_ & Hf & [E | [Hh Hl]]).
    + rewrite E. reflexivity.
    + apply normalize_cmdline_fixed; assumption.
  - rewrite (normalize_cmdline_short cmdline) by lia.
    apply normalize_cmdline_short. lia.
Qed.

(** X10: normalising twice is normalising once, for every vector. *)
Theorem normalize_cmdline_idempotent (cmdline : list string) :
  normalize_cmdline (normalize_cmdline cmdline) = normalize_cmdline cmdline.
Proof. exact (normalize_cmdline_twice cmdline). Qed.

Lemma join_cons_empty c l :
  l <> [] -> join (str1 c) ("" :: l) = String c (join (str1 c) l).
Proof. destruct l; [congruence|]. intros _. reflexivity. Qed.

(** X11: empty tokens at either end of the vector are dropped. For a
    vector of more than one token, one more empty token in front or at the
    end changes neither the normalised vector nor the command; and a
    vector that consists of empty tokens only, however many, gives the
    empty command. *)
Theorem command_drops_outer_empty_tokens :
  (forall cmdline,
      (1 < length cmdline)%nat ->
      normalize_cmdline (cmdline ++ [""]) = normalize_cmdline cmdline
      /\ normalize_cmdline ("" :: cmdline) = normalize_cmdline cmdline
      /\ command_of (cmdline ++ [""]) = command_of cmdline
      /\ command_of ("" :: cmdline) = command_of cmdline)
  /\ (forall n, command_of (repeat "" n) = "").
Proof.
  assert (Hn : forall cmdline,
             (1 < length cmdline)%nat ->
             normalize_cmdline (cmdline ++ [""]) = normalize_cmdline cmdline
             /\ normalize_cmdline ("" :: cmdline) = normalize_cmdline cmdline).
  { intros l Hlen.
    assert (Hne : l <> []) by (destruct l; [cbn in Hlen; lia | discriminate]).
    rewrite (normalize_cmdline_long l Hlen). split.
    - rewrite normalize_cmdline_long by (rewrite length_app; cbn; lia).
      rewrite (join_snoc_empty _ _ Hne), strip_app_sep. reflexivity.
    - rewrite normalize_cmdline_long by (cbn; lia).
      rewrite (join_cons_empty _ _ Hne), strip_cons_sep. reflexivity. }
  split.
  - intros l Hlen. destruct (Hn l Hlen) as [E1 E2].
    split; [exact E1|]. split; [exact E2|].
    unfold command_of. rewrite E1, E2. split; reflexivity.
  - intros n. destruct n as [|[|n]]; [reflexivity | reflexivity |].
    assert (E : normalize_cmdline (repeat "" (S (S n))) = [""]).
    { induction n as [|n IH]; [reflexivity|].
      change (repeat "" (S (S (S n)))) with ("" :: repeat "" (S (S n))).
      rewrite (proj2 (Hn (repeat "" (S (S n))) ltac:(cbn; lia))). exact IH. }
    unfold command_of. rewrite E. reflexivity.
Qed.

(** * The command of a device process *)

(** X12: [GpuProcess.command] never raises on a live object. It is the
    command of the vector the collaborator reports; for an empty vector it
    is the text Zombie Process, and when the collaborator fails it is the
    text No Such Process with the identity evicted, both without quotes
    although they hold a space. [HostProcess.command] on the same failure
    raises. *)
Theorem command_of_device_process os self w o :
  heap w !! self = Some o ->
  GpuProcess_command os self w =
    match host_cmdline os (hp_pid (host o)) with
    | Ok [] => (Return "Zombie Process", w)
    | Ok (arg :: args) => (Return (command_of (arg :: args)), w)
    | Fails _ => (Return "No Such Process", evict (_pid o) (device o) w)
    end
  /\ (forall e, host_cmdline os (hp_pid (host o)) = Fails e ->
        HostProcess_command os (host o) w = (Raise (Psutil e), w)).
Proof.
  intros Hlive. split.
  - unfold GpuProcess_command, bind.
    rewrite (GpuProcess_cmdline_eq os self w o Hlive).
    destruct (host_cmdline os (hp_pid (host o))) as [[|arg args]|e]; reflexivity.
  - intros e H. unfold HostProcess_command, bind, query. rewrite H. reflexivity.
Qed.

Lemma command_of_device_process_witness :
  GpuProcess_command gone_host 0%nat two_devices
  = (Return "No Such Process", evict 7 0%nat two_devices)
  /\ GpuProcess_command live_host 0%nat two_devices
     = (Return "python train.py", two_devices).
Proof.
  split.
  - apply (command_of_device_process gone_host 0%nat two_devices sample_process
             sample_process_live).
  - apply (command_of_device_process live_host 0%nat two_devices sample_process
             sample_process_live).
Defined.

(** * What a gather derives *)

Lemma bind_Return {A B} (m : M A) (k : A -> M B) w b w' :
  bind m k w = (Return b, w') ->
  exists a w1, m w = (Return a, w1) /\ k a w1 = (Return b, w').
Proof.
  unfold bind. destruct (m w) as [[a|e] w1]; intros H; [eauto | discriminate].
Qed.

Lemma GpuProcess_cmdline_nonempty os self w v w' :
  GpuProcess_cmdline os self w = (Return v, w') -> v <> [].
Proof.
  unfold GpuProcess_cmdline, auto_garbage_clean, bind, self_obj, query, ret.
  destruct (heap w !! self) as [o|] eqn:Hl; [|cbn; intros H; discriminate H].
  destruct (host_cmdline os (hp_pid (host o))) as [[|arg args]|e];
    cbn; rewrite ?Hl; intros H; inversion H; subst; intros Hv; discriminate Hv.
Qed.

Lemma normalize_cmdline_nonempty l : l <> [] -> normalize_cmdline l <> [].
Proof.
  intros H. unfold normalize_cmdline.
  destruct (1 <? length l)%nat; [apply split_nonempty | exact H].
Qed.

(** Whatever a gather returns is consistent. *)
Lemma gather_host_snapshot_consistent I os self w hs w' :
  gather_host_snapshot I os self w = (Return hs, w') ->
  host_snapshot_consistent I hs.
Proof.
  unfold gather_host_snapshot. intros H.
  repeat (cbv zeta beta in H; apply bind_Return in H;
          destruct H as (? & ? & ? & H)).
  unfold ret in H. inversion H; subst hs. clear H.
  match goal with
  | Hc : GpuProcess_cmdline _ _ _ = (Return ?c, _) |- _ =>
      pose proof (GpuProcess_cmdline_nonempty _ _ _ _ _ Hc) as Hne
  end.
  unfold host_snapshot_consistent. cbn.
  split; [reflexivity|]. split; [reflexivity|].
  match goal with
  | Hr : query (host_is_running _ _) _ = (Return ?b, _) |- _ => destruct b
  end.
  - split; [apply normalize_cmdline_nonempty, Hne|].
    split; [apply normalize_cmdline_twice|].
    split; [unfold command_of; rewrite normalize_cmdline_twice; reflexivity|].
    split; [reflexivity | discriminate].
  - split; [discriminate|]. split; [reflexivity|]. split; [reflexivity|].
    split; [discriminate | repeat split].
Qed.

Lemma auto_garbage_clean_Some {A} (func : ref -> M (option A)) self w a w' :
  auto_garbage_clean None func self w = (Return (Some a), w') ->
  func self w = (Return (Some a), w').
Proof.
  unfold auto_garbage_clean.
  destruct (func self w) as [[x|[e|]] w1]; intros H; try exact H; try discriminate H.
  destruct (heap w1 !! self); discriminate H.
Qed.

(** * Consistency of the objects and of the cache *)

Section QuietSteps.
Variables (I : Imports) (os : Host) (self : ref) (w : World).

Lemma create_time_quiet : quiet w (snd (GpuProcess_create_time I os self w)).
Proof.
  destruct (heap w !! self) as [o|] eqn:Hl.
  - rewrite (GpuProcess_create_time_eq I os self w o Hl).
    destruct (host_create_time _ _); [apply quiet_refl | apply quiet_evict].
  - unfold GpuProcess_create_time, auto_garbage_clean, bind, self_obj. rewrite Hl.
    apply quiet_refl.
Qed.

Lemma running_time_quiet : quiet w (snd (GpuProcess_running_time I os self w)).
Proof.
  destruct (heap w !! self) as [o|] eqn:Hl.
  - destruct (GpuProcess_running_time_total I os self w o Hl) as (v & w' & -> & Hq & _).
    exact Hq.
  - unfold GpuProcess_running_time.
    destruct (running_time_cached os self); [apply quiet_refl|].
    unfold GpuProcess_create_time, auto_garbage_clean, bind, self_obj.
    rewrite Hl. apply quiet_refl.
Qed.

Lemma username_quiet : quiet w (snd (GpuProcess_username os self w)).
Proof.
  destruct (heap w !! self) as [o|] eqn:Hl.
  - destruct (GpuProcess_username_total os self w o Hl) as (v & w' & -> & Hq & _).
    exact Hq.
  - unfold GpuProcess_username, auto_garbage_clean, bind, self_obj. rewrite Hl.
    apply quiet_refl.
Qed.

Lemma name_quiet : quiet w (snd (GpuProcess_name os self w)).
Proof.
  destruct (heap w !! self) as [o|] eqn:Hl.
  - destruct (GpuProcess_name_total os self w o Hl) as (v & w' & -> & Hq & _).
    exact Hq.
  - unfold GpuProcess_name, auto_garbage_clean, bind, self_obj. rewrite Hl.
    apply quiet_refl.
Qed.

Lemma cpu_percent_quiet : quiet w (snd (GpuProcess_cpu_percent os self w)).
Proof.
  destruct (heap w !! self) as [o|] eqn:Hl.
  - destruct (GpuProcess_cpu_percent_total os self w o Hl) as (v & w' & -> & Hq & _).
    exact Hq.
  - unfold GpuProcess_cpu_percent, auto_garbage_clean, bind, self_obj. rewrite Hl.
    apply quiet_refl.
Qed.

Lemma memory_percent_quiet : quiet w (snd (GpuProcess_memory_percent os self w)).
Proof.
  destruct (heap w !! self) as [o|] eqn:Hl.
  - destruct (GpuProcess_memory_percent_total os self w o Hl)
      as (v & w' & -> & Hq & _).
    exact Hq.
  - unfold GpuProcess_memory_percent, auto_garbage_clean, bind, self_obj. rewrite Hl.
    apply quiet_refl.
Qed.

Lemma cmdline_quiet : quiet w (snd (GpuProcess_cmdline os self w)).
Proof.
  destruct (heap w !! self) as [o|] eqn:Hl.
  - destruct (GpuProcess_cmdline_total os self w o Hl) as (v & w' & -> & Hq & _).
    exact Hq.
  - unfold GpuProcess_cmdline, auto_garbage_clean, bind, self_obj. rewrite Hl.
    apply quiet_refl.
Qed.

Lemma quiet_tame w' : quiet w w' -> tame I w w'.
Proof.
  intros Hq. split; [apply Hq|].
  intros p hs H. left. rewrite <- (quiet_snapshots _ _ Hq). exact H.
Qed.

Lemma tame_refl : tame I w w.
Proof. apply quiet_tame, quiet_refl. Qed.

Lemma as_snapshot_tame : tame I w (snd (as_snapshot I os self w)).
Proof.
  destruct (heap w !! self) as [o|] eqn:Hl.
  - destruct (HOST_SNAPSHOTS w !! _pid o) as [hs|] eqn:Hc.
    + rewrite (as_snapshot_cached I os self w o Hl hs Hc). apply tame_refl.
    + assert (Hfail : tame I w (evict (_pid o) (device o) (log_gather (_pid o) w))).
      { split; [|intros p hs H; left; exact H].
        intros r. cbn. destruct (heap w !! r); constructor. apply same_handle_refl. }
      destruct (host_is_running os (hp_pid (host o))) as [b|e] eqn:Hrun.
      * destruct (host_status os (hp_pid (host o))) as [st|e] eqn:Hst.
        -- destruct (gather_host_snapshot_total I os self w o Hl b st Hrun Hst)
             as (hs & w1 & o1 & Hg & Hq & Hl1 & _).
           pose proof (gather_host_snapshot_consistent I os self w hs _ Hg) as Hcons.
           assert (Hl' : heap (if CLI_MODE w
                               then set_HOST_SNAPSHOTS
                                      (<[_pid o := hs]> (HOST_SNAPSHOTS w1)) w1
                               else w1) !! self = Some o1)
             by (destruct (CLI_MODE w); exact Hl1).
           rewrite (as_snapshot_of_gather I os self w o Hl Hc hs _ o1 Hg Hl').
           cbn [snd]. split.
           ++ intros r. pose proof (quiet_heap _ _ Hq r) as H.
              destruct (CLI_MODE w); exact H.
           ++ intros p hs' H. destruct (CLI_MODE w).
              ** cbn in H. destruct (decide (_pid o = p)) as [<-|Hne].
                 --- rewrite lookup_insert_eq in H. inversion H; subst. right. exact Hcons.
                 --- rewrite lookup_insert_ne in H by exact Hne.
                     rewrite (quiet_snapshots _ _ Hq) in H. left. exact H.
              ** rewrite (quiet_snapshots _ _ Hq) in H. left. exact H.
        -- rewrite (as_snapshot_direct_failure I os self w o Hl Hc e)
             by (right; eauto).
           exact Hfail.
      * rewrite (as_snapshot_direct_failure I os self w o Hl Hc e)
          by (left; assumption).
        exact Hfail.
  - unfold as_snapshot, auto_garbage_clean, bind, self_obj. rewrite Hl.
    apply tame_refl.
Qed.
End QuietSteps.

Lemma object_consistent_same_handle I o o' :
  same_handle o o' -> object_consistent I o -> object_consistent I o'.
Proof.
  intros (Hp & Hh & Hd & Hm & Hu & Ht) (T & H & P). unfold object_consistent.
  rewrite Hp, Hh, Hm, Hu, Ht. auto.
Qed.

Lemma world_consistent_tame I w w' :
  world_consistent I w -> tame I w w' -> world_consistent I w'.
Proof.
  intros [Ho Hc] [Th Tc]. split.
  - intros r o' Hr. specialize (Th r). rewrite Hr in Th.
    inversion Th as [o ? Hs E1 E2|]; subst.
    eapply object_consistent_same_handle; [exact Hs|]. eapply Ho; eauto.
  - intros p hs Hp. destruct (Tc p hs Hp) as [H|H]; [eapply Hc; eauto | exact H].
Qed.

Lemma type_of_value_closed v :
  type_of_value v = "" \/ type_of_value v = "C"
  \/ type_of_value v = "G" \/ type_of_value v = "X".
Proof.
  rewrite type_of_value_cases.
  destruct (contains "X"%char v), (contains "C"%char v), (contains "G"%char v); auto.
Qed.

Section ConstructionConsistency.
Variable I : Imports.

Lemma HostProcess_call_pid pid w :
  (forall p h, HostProcess_INSTANCES w !! p = Some h -> hp_pid h = p) ->
  hp_pid (fst (HostProcess_call I pid w)) = default (getpid I) pid
  /\ (forall p h,
        HostProcess_INSTANCES (snd (HostProcess_call I pid w)) !! p = Some h ->
        hp_pid h = p).
Proof.
  intros Hok.
  destruct (HostProcess_call_cases I pid w) as [(h & Hh & ->) | [Hn ->]]; cbn.
  - split; [apply Hok, Hh | exact Hok].
  - split; [reflexivity|]. intros p h.
    destruct (decide (default (getpid I) pid = p)) as [<-|Hne].
    + rewrite lookup_insert_eq. intros H. inversion H. reflexivity.
    + rewrite lookup_insert_ne by exact Hne. apply Hok.
Qed.

(** The object that [__init__] leaves at [self]. *)
Lemma GpuProcess_init_object self pid dev mem ty w :
  let old := heap w !! self in
  let w' := GpuProcess_init I self pid dev mem ty w in
  heap w' !! self
  = Some (mkGpuProcess pid (fst (HostProcess_call I (Some pid) w)) dev
            (match mem with
             | Some value => value
             | None => from_option _gpu_memory NA old
             end)
            (match mem with
             | Some value => bytes2human I value
             | None => from_option _gpu_memory_human (bytes2human I NA) old
             end)
            (match ty with
             | Some value => type_of_value value
             | None => from_option _type "" old
             end)
            None)
  /\ (forall r, r <> self -> heap w' !! r = heap w !! r)
  /\ HOST_SNAPSHOTS w' = HOST_SNAPSHOTS w
  /\ HostProcess_INSTANCES w'
     = HostProcess_INSTANCES (snd (HostProcess_call I (Some pid) w)).
Proof.
  intros old w'. subst old w'. unfold GpuProcess_init.
  pose proof (HostProcess_call_frame I (Some pid) w) as F. cbn in F.
  destruct F as (_ & Fs & _ & Fh & _).
  destruct (HostProcess_call I (Some pid) w) as [h w1]. cbn in *.
  rewrite Fh, Fs. split; [|split; [|split; reflexivity]].
  - rewrite lookup_insert_eq.
    destruct mem, ty, (heap w !! self); reflexivity.
  - intros r Hr. apply lookup_insert_ne. congruence.
Qed.

Lemma GpuProcess_init_consistent self pid dev mem ty w :
  (forall p h, HostProcess_INSTANCES w !! p = Some h -> hp_pid h = p) ->
  world_consistent I w ->
  world_consistent I (GpuProcess_init I self pid dev mem ty w)
  /\ (forall p h,
        HostProcess_INSTANCES (GpuProcess_init I self pid dev mem ty w) !! p = Some h ->
        hp_pid h = p).
Proof.
  intros Hok [Ho Hc].
  destruct (GpuProcess_init_object self pid dev mem ty w) as (E & Hr & Es & Eh).
  destruct (HostProcess_call_pid (Some pid) w Hok) as [Hpid Hok'].
  split; [split|].
  - intros r o Hlook. destruct (decide (r = self)) as [->|Hne].
    + rewrite E in Hlook. inversion Hlook; subst o. clear Hlook.
      unfold object_consistent. cbn. split; [|split; [|exact Hpid]].
      * destruct ty as [v|]; [apply type_of_value_closed|].
        destruct (heap w !! self) as [o|] eqn:Hs; cbn; [apply (Ho self o Hs) | auto].
      * destruct mem as [v|]; [reflexivity|].
        destruct (heap w !! self) as [o|] eqn:Hs; cbn; [apply (Ho self o Hs) | reflexivity].
    + rewrite (Hr r Hne) in Hlook. eapply Ho; eauto.
  - intros p hs. rewrite Es. apply Hc.
  - intros p h. rewrite Eh. apply Hok'.
Qed.

Lemma GpuProcess_call_consistent pid dev mem ty w :
  (forall p h, HostProcess_INSTANCES w !! p = Some h -> hp_pid h = p) ->
  world_consistent I w ->
  world_consistent I (snd (GpuProcess_call I pid dev mem ty w))
  /\ (forall p h,
        HostProcess_INSTANCES (snd (GpuProcess_call I pid dev mem ty w)) !! p = Some h ->
        hp_pid h = p).
Proof.
  intros Hok Hw. unfold GpuProcess_call, GpuProcess_new.
  destruct (GpuProcess_INSTANCES w !! (pid, dev)) as [r0|]; cbn [snd].
  - apply GpuProcess_init_consistent; assumption.
  - set (w1 := set_next_ref (S (next_ref w)) w).
    assert (Hok1 : forall p h, HostProcess_INSTANCES w1 !! p = Some h -> hp_pid h = p)
      by exact Hok.
    assert (Hw1 : world_consistent I w1) by exact Hw.
    destruct (GpuProcess_init_consistent (next_ref w) pid dev mem ty w1 Hok1 Hw1)
      as [[Ho2 Hc2] Hok2].
    apply GpuProcess_init_consistent.
    + exact Hok2.
    + split; [exact Ho2|]. intros p hs. cbn.
      destruct (decide (pid = p)) as [<-|Hne].
      * rewrite lookup_delete_eq. discriminate.
      * rewrite lookup_delete_ne by exact Hne. apply Hc2.
Qed.

Lemma reachable_consistent w :
  reachable I w ->
  world_consistent I w
  /\ (forall p h, HostProcess_INSTANCES w !! p = Some h -> hp_pid h = p).
Proof.
  assert (Hstep : forall w w',
             world_consistent I w
             /\ (forall p h, HostProcess_INSTANCES w !! p = Some h -> hp_pid h = p) ->
             tame I w w' -> shrinks w w' ->
             world_consistent I w'
             /\ (forall p h, HostProcess_INSTANCES w' !! p = Some h -> hp_pid h = p)).
  { intros w0 w' [Hw Hok] Ht Hs. split; [eapply world_consistent_tame; eauto|].
    intros p h Hp. apply Hok. eapply lookup_weaken; [exact Hp | apply Hs]. }
  induction 1.
  - split; [split|]; intros *; cbn; rewrite lookup_empty; discriminate.
  - exact IHreachable.
  - destruct IHreachable as [Hw Hok]. split.
    + pose proof (HostProcess_call_frame I pid w) as F. cbn in F.
      destruct F as (_ & Fs & _ & Fh & _). destruct Hw as [Ho Hc].
      split; [intros r o; rewrite Fh; apply Ho | intros p hs; rewrite Fs; apply Hc].
    + apply HostProcess_call_pid, Hok.
  - destruct IHreachable as [Hw Hok]. apply GpuProcess_call_consistent; assumption.
  - destruct IHreachable as [[Ho Hc] Hok]. split.
    + unfold assign_type, bind, self_obj, modify.
      destruct (heap w !! self) as [o|] eqn:Hl; cbn [snd]; [|split; assumption].
      split; [|exact Hc]. cbn. intros r o'.
      destruct (decide (self = r)) as [<-|Hne].
      * rewrite lookup_insert_eq. intros E. inversion E; subst o'.
        destruct (Ho self o Hl) as (_ & Hm & Hp).
        split; [apply type_of_value_closed | split; assumption].
      * rewrite lookup_insert_ne by exact Hne. apply Ho.
    + intros p h Hp. apply Hok. eapply lookup_weaken; [exact Hp|].
      apply (shrinks_host _ _ (assign_type_shrinks self w value)).
  - destruct IHreachable as [[Ho Hc] Hok]. split.
    + unfold set_gpu_memory, bind, self_obj, modify.
      destruct (heap w !! self) as [o|] eqn:Hl; cbn [snd]; [|split; assumption].
      split; [|exact Hc]. cbn. intros r o'.
      destruct (decide (self = r)) as [<-|Hne].
      * rewrite lookup_insert_eq. intros E. inversion E; subst o'.
        destruct (Ho self o Hl) as (Ht & _ & Hp).
        split; [exact Ht | split; [reflexivity | exact Hp]].
      * rewrite lookup_insert_ne by exact Hne. apply Ho.
    + intros p h Hp. apply Hok. eapply lookup_weaken; [exact Hp|].
      apply (shrinks_host _ _ (set_gpu_memory_shrinks I self w value)).
  - destruct IHreachable as [[Ho Hc] Hok]. split; [split|exact Hok]; [exact Ho|].
    intros p hs. cbn. rewrite lookup_empty. discriminate.
  - apply (Hstep w); [exact IHreachable | apply quiet_tame, create_time_quiet
                      | apply create_time_shrinks].
  - apply (Hstep w); [exact IHreachable | apply quiet_tame, running_time_quiet
                      | apply running_time_shrinks].
  - apply (Hstep w); [exact IHreachable | apply quiet_tame, username_quiet
                      | apply username_shrinks].
  - apply (Hstep w); [exact IHreachable | apply quiet_tame, name_quiet
                      | apply name_shrinks].
  - apply (Hstep w); [exact IHreachable | apply quiet_tame, cpu_percent_quiet
                      | apply cpu_percent_shrinks].
  - apply (Hstep w); [exact IHreachable | apply quiet_tame, memory_percent_quiet
                      | apply memory_percent_shrinks].
  - apply (Hstep w); [exact IHreachable | apply quiet_tame, cmdline_quiet
                      | apply cmdline_shrinks].
  - apply (Hstep w); [exact IHreachable | apply as_snapshot_tame
                      | apply as_snapshot_shrinks].
Qed.
End ConstructionConsistency.



(** * What a snapshot holds *)

(** A snapshot is composed from the object as it is after the call and
    from a host snapshot that was cached or has just been gathered. *)
Lemma as_snapshot_Some I os self w s w' :
  as_snapshot I os self w = (Return (Some s), w') ->
  exists o hs o',
    heap w !! self = Some o
    /\ (HOST_SNAPSHOTS w !! _pid o = Some hs
        \/ gather_host_snapshot I os self w = (Return hs, w'))
    /\ heap w' !! self = Some o'
    /\ s = compose_snapshot self o' hs.
Proof.
  unfold as_snapshot. intros H. apply auto_garbage_clean_Some in H.
  apply bind_Return in H. destruct H as (o & w0 & H0 & H).
  unfold self_obj in H0. destruct (heap w !! self) as [o0|] eqn:Hl; [|discriminate H0].
  inversion H0; subst o0 w0. clear H0.
  apply bind_Return in H. destruct H as (cached & w1 & H1 & H).
  inversion H1; subst cached w1. clear H1.
  apply bind_Return in H. destruct H as (hs & w2 & H2 & H).
  apply bind_Return in H. destruct H as (o' & w3 & H3 & H).
  unfold self_obj in H3. destruct (heap w2 !! self) as [o2|] eqn:Hl2; [|discriminate H3].
  inversion H3; subst o2 w3. clear H3.
  unfold ret in H. inversion H; subst s w2. clear H.
  exists o, hs, o'. split; [reflexivity|]. split; [|split; [exact Hl2 | reflexivity]].
  destruct (HOST_SNAPSHOTS w !! _pid o) as [hs0|] eqn:Hc.
  - unfold ret in H2. inversion H2; subst. left. reflexivity.
  - right. exact H2.
Qed.



(** X15: the host-side fields of a snapshot fit together, whether the
    host snapshot was gathered by the call or reused from the cache of a
    reachable world. The two percent strings are the ones derived from the
    two percentages; the command line is not empty and is in normal form;
    the command is the command of that command line, as
    [HostProcess.command] computes it; for a running process the
    human-readable running time is the one of the running time; for a
    process that is not running the command line and the command are the
    placeholder No Such Process and the running time reads N/A. *)
Theorem snapshot_host_fields I os self w s w' :
  reachable I w ->
  as_snapshot I os self w = (Return (Some s), w') ->
  s_cpu_percent_string s = cpu_percent_string_of (s_cpu_percent s)
  /\ s_memory_percent_string s = memory_percent_string_of (s_memory_percent s)
  /\ s_cmdline s <> []
  /\ normalize_cmdline (s_cmdline s) = s_cmdline s
  /\ s_command s = command_of (s_cmdline s)
  /\ (s_is_running s = true ->
      s_running_time_human s = timedelta2human I (s_running_time s))
  /\ (s_is_running s = false ->
      s_cmdline s = ["No Such Process"]
      /\ s_command s = "No Such Process"
      /\ s_running_time_human s = "N/A").
Proof.
  intros Hreach Hs.
  destruct (as_snapshot_Some I os self w s w' Hs) as (o & hs & o' & _ & Hhs & _ & ->).
  assert (Hcons : host_snapshot_consistent I hs).
  { destruct Hhs as [Hc|Hg].
    - destruct (reachable_consistent I w Hreach) as [[_ Hcache] _].
      exact (Hcache _ _ Hc).
    - exact (gather_host_snapshot_consistent I os self w hs w' Hg). }
  exact Hcons.
Qed.

Lemma snapshot_host_fields_witness :
  exists s w',
    as_snapshot sample_imports gone_host 2%nat warmed_world = (Return (Some s), w')
    /\ s_command s = command_of (s_cmdline s)
    /\ s_command s = "python train.py".
Proof.
  eexists _, _. split; [vm_compute; reflexivity|]. split; [|vm_compute; reflexivity].
  edestruct (snapshot_host_fields sample_imports gone_host 2%nat warmed_world)
    as (_ & _ & _ & _ & Hcommand & _);
    [|vm_compute; reflexivity | exact Hcommand].
  unfold warmed_world, cli_world.
  apply reach_as_snapshot, reach_set_CLI_MODE, two_devices_reachable.
Defined.

(** * Construction: which attributes a call sets *)

(** X16: constructing a handle for an identity that is registered
    updates the registered object and nothing else in the heap. An
    argument that is given replaces the attribute (the memory with its
    human-readable string, the type by the classification of the given
    string, not merged with the old type); an argument that is omitted
    leaves the attribute as it was; and the cached user name is forgotten
    in either case. *)
Theorem retouch_sets_supplied_attributes I pid dev mem ty w r o :
  GpuProcess_INSTANCES w !! (pid, dev) = Some r ->
  heap w !! r = Some o ->
  let w' := snd (GpuProcess_call I pid dev mem ty w) in
  (exists o',
      heap w' !! r = Some o'
      /\ _pid o' = pid /\ device o' = dev
      /\ _gpu_memory o' = default (_gpu_memory o) mem
      /\ _gpu_memory_human o'
         = match mem with
           | Some value => bytes2human I value
           | None => _gpu_memory_human o
           end
      /\ _type o'
         = match ty with
           | Some value => type_of_value value
           | None => _type o
           end
      /\ _username o' = None)
  /\ (forall r', r' <> r -> heap w' !! r' = heap w !! r')
  /\ HOST_SNAPSHOTS w' = HOST_SNAPSHOTS w.
Proof.
  intros Hr Ho w'. subst w'. unfold GpuProcess_call, GpuProcess_new. rewrite Hr.
  cbn [snd].
  destruct (GpuProcess_init_object I r pid dev mem ty w) as (E & Hother & Es & _).
  rewrite Ho in E. split; [|split; assumption].
  eexists. split; [exact E|]. cbn.
  destruct mem, ty; repeat split.
Qed.

Lemma retouch_sets_supplied_attributes_witness :
  exists o',
    heap (snd (GpuProcess_call sample_imports 7 0%nat None (Some "G") two_devices))
      !! 0%nat = Some o'
    /\ _gpu_memory o' = Bytes 1024
    /\ _type o' = "G".
Proof.
  destruct (retouch_sets_supplied_attributes sample_imports 7 0%nat None (Some "G")
              two_devices 0%nat sample_process)
    as ((o' & Hl & _ & _ & Hm & _ & Ht & _) & _);
    [vm_compute; reflexivity | apply sample_process_live |].
  exists o'. split; [exact Hl|]. split; [exact Hm | exact Ht].
Defined.




Lemma GpuProcess_call_heap_frame I pid dev mem ty w (r : ref) :
  r <> fst (GpuProcess_call I pid dev mem ty w) ->
  heap (snd (GpuProcess_call I pid dev mem ty w)) !! r = heap w !! r.
Proof.
  unfold GpuProcess_call, GpuProcess_new.
  destruct (GpuProcess_INSTANCES w !! (pid, dev)) as [r0|]; cbn [fst snd]; intros Hne.
  - destruct (GpuProcess_init_object I r0 pid dev mem ty w) as (_ & H & _).
    apply H. exact Hne.
  - set (n := next_ref w) in *.
    set (w1 := set_next_ref (S n) w).
    set (w2 := GpuProcess_init I n pid dev mem ty w1).
    set (w3 := set_HOST_SNAPSHOTS _ _).
    destruct (GpuProcess_init_object I n pid dev mem ty w3) as (_ & H3 & _).
    destruct (GpuProcess_init_object I n pid dev mem ty w1) as (_ & H1 & _).
    transitivity (heap w2 !! r); [exact (H3 r Hne) | exact (H1 r Hne)].
Qed.

(** * What a snapshot writes *)

Lemma as_snapshot_world I os self w :
  match heap w !! self with
  | None => snd (as_snapshot I os self w) = w
  | Some o =>
      match HOST_SNAPSHOTS w !! _pid o with
      | Some _ => snd (as_snapshot I os self w) = w
      | None =>
          exists w1,
            quiet (log_gather (_pid o) w) w1
            /\ (snd (as_snapshot I os self w) = w1
                \/ exists hs,
                     CLI_MODE w = true
                     /\ snd (as_snapshot I os self w)
                        = set_HOST_SNAPSHOTS (<[_pid o := hs]> (HOST_SNAPSHOTS w1)) w1)
      end
  end.
Proof.
  destruct (heap w !! self) as [o|] eqn:Hl.
  2:{ unfold as_snapshot, auto_garbage_clean, bind, self_obj. rewrite Hl.
      reflexivity. }
  destruct (HOST_SNAPSHOTS w !! _pid o) as [hs|] eqn:Hc.
  { rewrite (as_snapshot_cached I os self w o Hl hs Hc). reflexivity. }
  assert (Hfail : forall e,
            host_is_running os (hp_pid (host o)) = Fails e
            \/ ((exists b, host_is_running os (hp_pid (host o)) = Ok b)
                /\ host_status os (hp_pid (host o)) = Fails e) ->
            exists w1,
              quiet (log_gather (_pid o) w) w1
              /\ (snd (as_snapshot I os self w) = w1
                  \/ exists hs,
                       CLI_MODE w = true
                       /\ snd (as_snapshot I os self w)
                          = set_HOST_SNAPSHOTS
                              (<[_pid o := hs]> (HOST_SNAPSHOTS w1)) w1)).
  { intros e He. rewrite (as_snapshot_direct_failure I os self w o Hl Hc e He).
    eexists. split; [apply quiet_evict | left; reflexivity]. }
  destruct (host_is_running os (hp_pid (host o))) as [b|e] eqn:Hrun;
    [|apply (Hfail e); left; reflexivity].
  destruct (host_status os (hp_pid (host o))) as [st|e] eqn:Hst;
    [|apply (Hfail e); right; eauto].
  destruct (gather_host_snapshot_total I os self w o Hl b st Hrun Hst)
    as (hs & w1 & o1 & Hgather & Hq & Hl1 & _).
  assert (Hl' : heap (if CLI_MODE w
                      then set_HOST_SNAPSHOTS (<[_pid o := hs]> (HOST_SNAPSHOTS w1)) w1
                      else w1) !! self = Some o1)
    by (destruct (CLI_MODE w); exact Hl1).
  rewrite (as_snapshot_of_gather I os self w o Hl Hc hs _ o1 Hgather Hl').
  cbn [snd]. exists w1. split; [exact Hq|].
  destruct (CLI_MODE w); [right; eauto | left; reflexivity].
Qed.

(** X18: what [as_snapshot] may change outside the object. It never
    switches the cache mode and never allocates. It never removes or
    replaces an entry of the cache of host snapshots: every entry that was
    there is still there. An entry appears only in the persistent mode,
    only under the pid of the object the snapshot was asked of, and only
    when no entry was cached for that pid; so with the mode off the cache
    is as before. The log of batch gathers grows by that pid exactly when
    no entry was cached for it, and is as before otherwise. *)
Theorem as_snapshot_cache_footprint I os self w :
  let w' := snd (as_snapshot I os self w) in
  CLI_MODE w' = CLI_MODE w
  /\ next_ref w' = next_ref w
  /\ HOST_SNAPSHOTS w ⊆ HOST_SNAPSHOTS w'
  /\ (forall p, HOST_SNAPSHOTS w' !! p <> HOST_SNAPSHOTS w !! p ->
        CLI_MODE w = true
        /\ HOST_SNAPSHOTS w !! p = None
        /\ exists o, heap w !! self = Some o /\ _pid o = p)
  /\ (CLI_MODE w = false -> HOST_SNAPSHOTS w' = HOST_SNAPSHOTS w)
  /\ (forall o, heap w !! self = Some o ->
        gathers w'
        = match HOST_SNAPSHOTS w !! _pid o with
          | Some _ => gathers w
          | None => (gathers w ++ [_pid o])%list
          end).
Proof.
  intros w'. subst w'.
  pose proof (as_snapshot_world I os self w) as H.
  destruct (heap w !! self) as [o|] eqn:Hl.
  2:{ rewrite H. split; [reflexivity|]. split; [reflexivity|].
      split; [reflexivity|]. split; [intros p Hp; congruence|].
      split; [reflexivity|]. intros o Ho. discriminate Ho. }
  destruct (HOST_SNAPSHOTS w !! _pid o) as [hs0|] eqn:Hc.
  { rewrite H. split; [reflexivity|]. split; [reflexivity|].
    split; [reflexivity|]. split; [intros p Hp; congruence|].
    split; [reflexivity|]. intros o' Ho'. inversion Ho'; subst o'.
    rewrite Hc. reflexivity. }
  assert (Hlog : forall o0, Some o = Some o0 ->
            gathers (snd (as_snapshot I os self w))
            = match HOST_SNAPSHOTS w !! _pid o0 with
              | Some _ => gathers w
              | None => (gathers w ++ [_pid o0])%list
              end).
  { intros o0 Ho0. inversion Ho0; subst o0. rewrite Hc.
    apply as_snapshot_miss_gathers; assumption. }
  destruct H as (w1 & Hq & [E | (hs & Hcli & E)]); rewrite E in *.
  - pose proof (quiet_snapshots _ _ Hq) as Hs. cbn in Hs. rewrite Hs.
    split; [exact (quiet_cli _ _ Hq)|]. split; [exact (quiet_next _ _ Hq)|].
    split; [reflexivity|]. split; [intros p Hp; congruence|].
    split; [reflexivity | exact Hlog].
  - pose proof (quiet_snapshots _ _ Hq) as Hs. cbn in Hs. cbn. rewrite Hs.
    split; [exact (quiet_cli _ _ Hq)|]. split; [exact (quiet_next _ _ Hq)|].
    split; [apply insert_subseteq; exact Hc|].
    split; [|split; [intros Hoff; congruence | exact Hlog]].
    intros p Hp. destruct (decide (_pid o = p)) as [<-|Hne].
    + split; [exact Hcli|]. split; [exact Hc|]. eauto.
    + rewrite lookup_insert_ne in Hp by exact Hne. congruence.
Qed.

(** * A handle that outlives its registration *)

(** X19: the handler of the wrapper deletes by key, not by object. In a
    reachable world, take an object that is still held but no longer
    registered, and construct its identity again: the call returns another
    object, registers it, and leaves the held object as it was. When the
    [name] query then fails through the held object, [name] returns its
    default and the registration of the object that replaced it is
    deleted, together with the host handle of the pid. *)
Theorem stale_handle_evicts_successor I os mem ty w (r : ref) o e :
  reachable I w ->
  heap w !! r = Some o ->
  GpuProcess_INSTANCES w !! (_pid o, device o) = None ->
  host_name os (_pid o) = Fails e ->
  let r' := fst (GpuProcess_call I (_pid o) (device o) mem ty w) in
  let w' := snd (GpuProcess_call I (_pid o) (device o) mem ty w) in
  r' <> r
  /\ heap w' !! r = Some o
  /\ GpuProcess_INSTANCES w' !! (_pid o, device o) = Some r'
  /\ is_Some (HostProcess_INSTANCES w' !! _pid o)
  /\ fst (GpuProcess_name os r w') = Return "N/A"
  /\ GpuProcess_INSTANCES (snd (GpuProcess_name os r w')) !! (_pid o, device o) = None
  /\ HostProcess_INSTANCES (snd (GpuProcess_name os r w')) !! _pid o = None.
Proof.
  intros Hreach Hl Hnew Hfail r' w'.
  pose proof (reachable_wf I w Hreach) as W.
  destruct (reachable_consistent I w Hreach) as [[Hobj _] _].
  destruct (Hobj r o Hl) as (_ & _ & Hpid).
  destruct (GpuProcess_call_frame I (_pid o) (device o) mem ty w)
    as (Hreg & _ & _ & Hhost & _ & _ & Hc).
  fold r' w' in Hreg, Hhost, Hc. rewrite Hnew in Hc. destruct Hc as [Er _].
  assert (Hne : r <> r').
  { rewrite Er. pose proof (wf_heap w W r o Hl). lia. }
  assert (Hl' : heap w' !! r = Some o).
  { subst w'. rewrite (GpuProcess_call_heap_frame I _ _ mem ty w r Hne). exact Hl. }
  split; [congruence|]. split; [exact Hl'|]. split; [exact Hreg|].
  split; [exact Hhost|].
  destruct (GpuProcess_name_total os r w' o Hl') as (v & w'' & E & _ & F).
  rewrite E. cbn [fst snd].
  destruct (F e) as (-> & Ha1 & Ha2); [rewrite Hpid; exact Hfail|].
  split; [reflexivity|]. split; assumption.
Qed.

Lemma stale_handle_evicts_successor_witness :
  let w := snd (GpuProcess_name gone_host 0%nat two_devices) in
  let r' := fst (GpuProcess_call sample_imports 7 0%nat None None w) in
  let w' := snd (GpuProcess_call sample_imports 7 0%nat None None w) in
  r' <> 0%nat
  /\ GpuProcess_INSTANCES w' !! (7, 0%nat) = Some r'
  /\ GpuProcess_INSTANCES (snd (GpuProcess_name gone_host 0%nat w')) !! (7, 0%nat) = None.
Proof.
  intros w r' w'.
  destruct (stale_handle_evicts_successor sample_imports gone_host None None w
              0%nat sample_process NoSuchProcess)
    as (H1 & _ & H3 & _ & _ & H6 & _);
    [apply reach_name, two_devices_reachable
    | vm_compute; reflexivity | vm_compute; reflexivity | reflexivity |].
  split; [exact H1|]. split; [exact H3 | exact H6].
Defined.

(** * The exporter: the devices that get gauges *)

Section CollectDevicesFacts.
Context {D : Type}.
Variable mig_devices : D -> list D.

Lemma collect_devices_from (acc : list D * list D) (ps : list D) :
  fold_left (collect_step mig_devices) ps acc
  = ((fst acc ++ flat_map (fun d => d :: mig_devices d) ps)%list,
     (snd acc ++ flat_map (fun d => match mig_devices d with
                                    | [] => [d]
                                    | m => m
                                    end) ps)%list).
Proof.
  revert acc. induction ps as [|p ps IH]; intros [ds ls]; cbn [fold_left flat_map fst snd].
  - rewrite !app_nil_r. reflexivity.
  - rewrite IH. unfold collect_step.
    destruct (mig_devices p) as [|m ms] eqn:E; cbn [length Nat.ltb Nat.leb fst snd].
    + rewrite <- !app_assoc. reflexivity.
    + rewrite <- !app_assoc. reflexivity.
Qed.

Lemma collect_devices_closed (ps : list D) :
  collect_devices mig_devices ps
  = (flat_map (fun d => d :: mig_devices d) ps,
     flat_map (fun d => match mig_devices d with [] => [d] | m => m end) ps).
Proof. unfold collect_devices. rewrite collect_devices_from. reflexivity. Qed.

Lemma leaf_sublist_devices (ps : list D) :
  flat_map (fun d => match mig_devices d with [] => [d] | m => m end) ps
  `sublist_of` flat_map (fun d => d :: mig_devices d) ps.
Proof.
  induction ps as [|p ps IH]; cbn [flat_map]; [constructor|].
  apply sublist_app; [|exact IH].
  destruct (mig_devices p) as [|m ms].
  - reflexivity.
  - apply sublist_cons. reflexivity.
Qed.

Lemma physical_sublist_devices (ps : list D) :
  ps `sublist_of` flat_map (fun d => d :: mig_devices d) ps.
Proof.
  induction ps as [|p ps IH]; cbn [flat_map]; [constructor|].
  cbn [app]. apply sublist_skip.
  etrans; [exact IH|]. apply sublist_inserts_l. reflexivity.
Qed.
End CollectDevicesFacts.

(** X20: the loop that flattens the device tree, in closed form. After
    the loop, [devices] is every physical device followed at once by its
    MIG instances, in the order of [physical_devices]; [leaf_devices] is,
    for every physical device in that order, its MIG instances when it has
    any and the device itself when it has none. *)
Theorem collect_devices_flattens {D} (mig_devices : D -> list D) (physical_devices : list D) :
  fst (collect_devices mig_devices physical_devices)
  = flat_map (fun d => d :: mig_devices d) physical_devices
  /\ snd (collect_devices mig_devices physical_devices)
     = flat_map (fun d => match mig_devices d with [] => [d] | m => m end)
         physical_devices.
Proof. rewrite collect_devices_closed. split; reflexivity. Qed.

(** X21: how the two lists of the loop sit in each other. The physical
    devices and the leaf devices are both sub-sequences of [devices], so
    every one of them gets its gauges, in the order of the list. A device
    is in [devices] exactly when it is a physical device or a MIG instance
    of one; it is in [leaf_devices] exactly when it is a physical device
    without MIG instances or a MIG instance of a physical device; and
    [devices] has one entry per physical device and one per MIG
    instance. *)
Theorem collect_devices_nesting {D} (mig_devices : D -> list D) (physical_devices : list D) :
  let devices := fst (collect_devices mig_devices physical_devices) in
  let leaf_devices := snd (collect_devices mig_devices physical_devices) in
  physical_devices `sublist_of` devices
  /\ leaf_devices `sublist_of` devices
  /\ (forall d, In d devices <->
        In d physical_devices
        \/ exists p, In p physical_devices /\ In d (mig_devices p))
  /\ (forall d, In d leaf_devices <->
        (In d physical_devices /\ mig_devices d = [])
        \/ exists p, In p physical_devices /\ In d (mig_devices p))
  /\ length devices
     = (length physical_devices
        + length (flat_map mig_devices physical_devices))%nat.
Proof.
  intros devices leaf_devices. subst devices leaf_devices.
  rewrite collect_devices_closed. cbn [fst snd].
  split; [apply physical_sublist_devices|].
  split; [apply leaf_sublist_devices|].
  split; [|split].
  - intros d. rewrite in_flat_map. split.
    + intros (p & Hp & [<- | Hd]); [left; exact Hp | right; eauto].
    + intros [Hd | (p & Hp & Hd)]; [exists d | exists p]; cbn; auto.
  - intros d. rewrite in_flat_map. split.
    + intros (p & Hp & Hd). destruct (mig_devices p) as [|m ms] eqn:E.
      * destruct Hd as [<- | []]. left. auto.
      * right. exists p. rewrite E. auto.
    + intros [[Hd E] | (p & Hp & Hd)].
      * exists d. rewrite E. cbn. auto.
      * exists p. split; [exact Hp|]. destruct (mig_devices p); [destruct Hd | exact Hd].
  - induction physical_devices as [|p ps IH]; [reflexivity|].
    cbn [flat_map length]. rewrite !length_app, IH. cbn [length]. lia.
Qed.

(** * The exporter: the label of a device *)

Lemma contains_string_of_uint d :
  contains c_colon (NilEmpty.string_of_uint d) = false.
Proof. induction d; cbn; assumption || reflexivity. Qed.

Lemma str_of_Z_no_colon z : contains c_colon (str_of_Z z) = false.
Proof.
  unfold str_of_Z, NilZero.string_of_int, NilZero.string_of_uint.
  destruct (Z.to_int z) as [d|d].
  - destruct d; try reflexivity; apply (contains_string_of_uint (_ _)).
  - cbn. destruct d; try reflexivity; apply (contains_string_of_uint (_ _)).
Qed.

Lemma str_of_Z_inj z z' : str_of_Z z = str_of_Z z' -> z = z'.
Proof.
  unfold str_of_Z. intros H. apply DecimalZ.to_int_inj.
  assert (Hn : forall n, Z.to_int n <> Decimal.Pos Decimal.Nil
                         /\ Z.to_int n <> Decimal.Neg Decimal.Nil).
  { intros [|p|p]; cbn; split; try discriminate; intros E; inversion E as [E'];
      exact (DecimalPos.Unsigned.to_uint_nonnil p E'). }
  pose proof (NilZero.isi (Z.to_int z) (proj1 (Hn z)) (proj2 (Hn z))) as E1.
  pose proof (NilZero.isi (Z.to_int z') (proj1 (Hn z')) (proj2 (Hn z'))) as E2.
  rewrite H in E1. congruence.
Qed.

Lemma str_of_Z_nonempty z : str_of_Z z <> "".
Proof.
  unfold str_of_Z, NilZero.string_of_int, NilZero.string_of_uint.
  destruct z as [|p|p]; cbn; try discriminate;
    pose proof (DecimalPos.Unsigned.to_uint_nonnil p) as Hn;
    destruct (Pos.to_uint p); try discriminate; congruence.
Qed.

Lemma map_str_of_Z_inj t t' : map str_of_Z t = map str_of_Z t' -> t = t'.
Proof.
  revert t'. induction t as [|a t IH]; intros [|b t'] H; try discriminate H.
  - reflexivity.
  - cbn in H. inversion H as [[Ha Ht]]. f_equal; [apply str_of_Z_inj, Ha | apply IH, Ht].
Qed.

Lemma index_label_splits index :
  index_components index <> [] ->
  split c_colon (index_label index) = map str_of_Z (index_components index).
Proof.
  assert (Hplain : forall t, Forall (fun s => contains c_colon s = false) (map str_of_Z t)).
  { intros t. induction t; cbn; constructor; [apply str_of_Z_no_colon | assumption]. }
  destruct index as [i|t]; cbn [index_label index_components]; intros Hne.
  - apply split_plain, str_of_Z_no_colon.
  - apply split_join; [destruct t; [congruence | discriminate] | apply Hplain].
Qed.

Lemma index_label_empty index : index_label index = "" -> index_components index = [].
Proof.
  destruct index as [i|[|a t]]; cbn [index_label index_components]; intros H.
  - destruct (str_of_Z_nonempty i H).
  - reflexivity.
  - exfalso. cbn [map] in H. destruct (map str_of_Z t) as [|b l]; cbn [join] in H.
    + exact (str_of_Z_nonempty a H).
    + destruct (str_of_Z a) eqn:E; [exact (str_of_Z_nonempty a E) | discriminate H].
Qed.

(** X22: the label of a gauge tells the index of its device. Two
    indices with the same label are made of the same integers: two [int]
    indices with one label are equal, two tuples with one label are equal,
    and an [int] and a tuple share a label only when the tuple holds that
    one integer. *)
Theorem index_label_determines_index (a b : DeviceIndex) :
  index_label a = index_label b ->
  index_components a = index_components b.
Proof.
  intros H.
  destruct (index_components a) as [|x xs] eqn:Ea.
  - destruct (index_components b) as [|y ys] eqn:Eb; [reflexivity|].
    assert (Hb : index_label b = "").
    { rewrite <- H. destruct a as [i|[|? ?]]; cbn in Ea; try discriminate Ea.
      reflexivity. }
    rewrite (index_label_empty b Hb) in Eb. discriminate Eb.
  - destruct (index_components b) as [|y ys] eqn:Eb.
    + assert (Ha : index_label a = "").
      { rewrite H. destruct b as [i|[|? ?]]; cbn in Eb; try discriminate Eb.
        reflexivity. }
      rewrite (index_label_empty a Ha) in Ea. discriminate Ea.
    + apply map_str_of_Z_inj.
      rewrite <- Ea, <- Eb, <- !index_label_splits, H; [reflexivity | |];
        congruence.
Qed.

Lemma index_label_determines_index_witness :
  index_label (IntIndex 3) = index_label (TupleIndex [3])
  /\ index_components (IntIndex 3) = index_components (TupleIndex [3]).
Proof.
  split; [vm_compute; reflexivity|].
  apply (index_label_determines_index (IntIndex 3) (TupleIndex [3])).
  vm_compute. reflexivity.
Defined.
